(** * go-algorand: committee selector parameters and the gossip network

    A shallow embedding of [agreement/selector.go] (the helper that gathers
    the membership-verification parameters of a vote) and of the gossip
    node as the test file of package [network] sets it up and drives it.

    Part I holds the definitions, Part II the lemmas and theorems. *)

From Stdlib Require Import String Ascii.
From Stdlib Require Import ZArith List Bool Lia.
Import ListNotations.

Local Open Scope Z_scope.

(* ================================================================== *)
(** * Part I.  Definitions *)
(* ================================================================== *)

(** ** Go's unsigned 64-bit integers and errors *)

Module Go.

(** A [uint64] is carried as a [Z]; every arithmetic operation wraps. *)
Definition uint64_modulus : Z := 2 ^ 64.

Definition is_uint64 (z : Z) : Prop := 0 <= z < uint64_modulus.

Definition wrap64 (z : Z) : Z := z mod uint64_modulus.

Definition add64 (a b : Z) : Z := wrap64 (a + b).
Definition sub64 (a b : Z) : Z := wrap64 (a - b).
Definition mul64 (a b : Z) : Z := wrap64 (a * b).

(** The zero value every Go type has. *)
Class Zero (A : Type) := zero : A.

#[export] Instance Zero_Z : Zero Z := 0.
#[export] Instance Zero_bool : Zero bool := false.

(** A Go result pair [(v, err)]: [err = None] is the nil error. *)
Definition result (E A : Type) : Type := A * option E.

End Go.

(** ** data/basics *)

Module Basics.
Import Go.

(** [basics.Round] is a [uint64]. *)
Definition Round := Z.

(** Modelled from the spec: [basics.Round.SubSaturate] is declared in
    data/basics, which is not among the sources.  It is the saturating
    subtraction its name and its callers in [selector.go] describe:
    [round - x] on [uint64], and 0 where that would go below zero. *)
Definition SubSaturate (round x : Round) : Round :=
  if round <? x then 0 else sub64 round x.

End Basics.

(** ** config: the consensus parameters read by the selector *)

Module Config.

Record ConsensusParams : Type := {
  TwinSeeds : bool;
  SeedLookback : Z;          (* uint64 *)
  SeedRefreshInterval : Z;   (* uint64 *)
  IncorrectBalLookback : bool
}.

End Config.

(** ** agreement/selector.go *)

Module Agreement.
Import Go Basics Config.

Definition balanceRound (r : Round) (cparams : ConsensusParams) : Round :=
  if TwinSeeds cparams then
    SubSaturate r (mul64 (mul64 2 (SeedRefreshInterval cparams)) (SeedLookback cparams))
  else
    let lookback :=
      add64 (add64 (mul64 2 (SeedRefreshInterval cparams)) (SeedLookback cparams)) 1 in
    if IncorrectBalLookback cparams then
      SubSaturate (add64 r 2) lookback
    else
      SubSaturate r lookback.

Definition seedRound (r : Round) (cparams : ConsensusParams) : Round :=
  SubSaturate r (SeedLookback cparams).

(** The lookback [balanceRound] subtracts, and the round it subtracts it
    from, with the wrap-around of [uint64] written out. *)
Definition balanceLookback (cparams : ConsensusParams) : Z :=
  if TwinSeeds cparams
  then wrap64 (2 * SeedRefreshInterval cparams * SeedLookback cparams)
  else wrap64 (2 * SeedRefreshInterval cparams + SeedLookback cparams + 1).

Definition balanceFrom (r : Round) (cparams : ConsensusParams) : Z :=
  if negb (TwinSeeds cparams) && IncorrectBalLookback cparams
  then wrap64 (r + 2) else r.

(** Consensus parameters to try the rounds on: the lookbacks of the
    first protocol versions. *)
Definition sampleConsensus : ConsensusParams :=
  {| TwinSeeds := false; SeedLookback := 2;
     SeedRefreshInterval := 100; IncorrectBalLookback := true |}.

Section Membership.

(** The types of other packages: [committee.Seed], [basics.Address],
    [basics.BalanceRecord], [basics.MicroAlgos], and the agreement
    package's [period] and [step]; [LedgerError] is whatever error a
    ledger hands back. *)
Context {Seed Address BalanceRecord MicroAlgos period step LedgerError : Type}.
Context `{Zero Seed, Zero BalanceRecord, Zero MicroAlgos, Zero period, Zero step}.

(** [ParamsRound], declared elsewhere in the agreement package. *)
Variable ParamsRound : Round -> Round.

(** The fields of [selector] carry a prefix, and a few names below a
    trailing underscore, where the source's name is taken by a type. *)
Record selector : Type := {
  sel_Seed : Seed;
  sel_Round : Round;
  sel_Period : period;
  sel_Step : step
}.

(** [committee.Membership], by the three fields [membership] fills. *)
Record Membership : Type := {
  Record_ : BalanceRecord;
  Selector : selector;
  TotalMoney : MicroAlgos
}.

#[export] Instance Zero_selector : Zero selector :=
  {| sel_Seed := zero; sel_Round := zero; sel_Period := zero; sel_Step := zero |}.

#[export] Instance Zero_Membership : Zero Membership :=
  {| Record_ := zero; Selector := zero; TotalMoney := zero |}.

(** The errors [membership] returns: the ledger's own error for the
    consensus parameters, and one [fmt.Errorf] wrapper per later query,
    with the arguments of its format string. *)
Inductive error : Type :=
| LedgerErr (e : LedgerError)
| ErrBalanceRecord (r : Round) (addr : Address) (balanceRound : Round) (cause : error)
| ErrCirculation (r : Round) (balanceRound : Round) (cause : error)
| ErrSeed (r : Round) (seedRound : Round) (cause : error).

(** The four methods of the [LedgerReader] interface that [membership]
    calls. *)
Record LedgerReader : Type := {
  ConsensusParams_ : Round -> result error ConsensusParams;
  BalanceRecord_ : Round -> Address -> result error BalanceRecord;
  Circulation : Round -> result error MicroAlgos;
  Seed_ : Round -> result error Seed
}.

Definition membership (l : LedgerReader) (addr : Address) (r : Round)
    (p : period) (s : step) : result error Membership :=
  let m : Membership := zero in
  match ConsensusParams_ l (ParamsRound r) with
  | (_, Some err) => (m, Some err)
  | (cparams, None) =>
    let balanceRound := balanceRound r cparams in
    let seedRound := seedRound r cparams in
    match BalanceRecord_ l balanceRound addr with
    | (_, Some err) => (m, Some (ErrBalanceRecord r addr balanceRound err))
    | (record, None) =>
      match Circulation l balanceRound with
      | (_, Some err) => (m, Some (ErrCirculation r balanceRound err))
      | (total, None) =>
        match Seed_ l seedRound with
        | (_, Some err) => (m, Some (ErrSeed r seedRound err))
        | (seed, None) =>
          ({| Record_ := record;
              Selector := {| sel_Seed := seed; sel_Round := r;
                             sel_Period := p; sel_Step := s |};
              TotalMoney := total |}, None)
        end
      end
    end
  end.

(** A query fails when the error it returns is not nil. *)
Definition failed {A : Type} (res : result error A) : Prop := snd res <> None.

End Membership.

Arguments selector : clear implicits.
Arguments Membership : clear implicits.
Arguments error : clear implicits.
Arguments LedgerReader : clear implicits.

End Agreement.

(** ** network: the gossip node of the package's test file *)

Module Policy.

(** What a handler asks the node to do with a message it was given. *)
Inductive ForwardingPolicy : Type := Ignore | Disconnect | Broadcast.

#[export] Instance Zero_ForwardingPolicy : Go.Zero ForwardingPolicy := Ignore.

End Policy.

Module Network.
Import Go.
Export Policy.

(** Instants and durations in nanoseconds, as [time.Time] and
    [time.Duration] count them. *)
Abbreviation Time := Z (only parsing).
Abbreviation Duration := Z (only parsing).
Definition Millisecond : Duration := 1000000.
Definition Second : Duration := 1000 * Millisecond.
Definition Hour : Duration := 3600 * Second.

(** [protocol.Tag], a message's payload and a content digest. *)
Definition Tag := string.
Definition bytes := list Byte.byte.
Definition Digest := Z.

(** What the test file uses of its package without declaring it: the
    classification of tags, the longest time a message may wait in the
    queues, the size below which the filter does not look at a message,
    the digest of a tagged message and the length of the two node-level
    broadcast queues. *)
Class Params : Type := {
  highPriorityTag : Tag -> bool;
  maxMessageQueueDuration : Duration;
  messageFilterSize : nat;
  messageDigest : Tag -> bytes -> Digest;
  broadcastQueueLength : nat
}.

Inductive error : Type := errBcastQFull.

Definition sendBufferLength : nat := 1000.

Definition debugTag : Tag := "DD"%string.

(** *** Buffered channels *)

Record chan (A : Type) : Type := mkChan { buf : list A; cap : nat }.
Arguments mkChan {A} _ _.
Arguments buf {A} _.
Arguments cap {A} _.

Definition makeChan (A : Type) (n : nat) : chan A := mkChan [] n.

(** [select { case c <- x: ...; default: ... }]: the send goes through
    only when the buffer has room. *)
Definition trySend {A : Type} (c : chan A) (x : A) : option (chan A) :=
  if (length (buf c) <? cap c)%nat then Some (mkChan (buf c ++ [x]) (cap c)) else None.

(** *** Messages *)

Record broadcastRequest : Type := {
  tag : Tag;
  data : bytes;
  except : option nat;
  enqueueTime : Time
}.

Record sendMessage : Type := {
  msg_tag : Tag;
  msg_data : bytes;
  enqueued : Time
}.

Record IncomingMessage : Type := {
  Sender : nat;
  Tag_ : Tag;
  Data : bytes
}.

Record OutgoingMessage : Type := { Action : ForwardingPolicy }.

(** *** messageCounterHandler *)

(** Go's [int] on the 64-bit platforms the tests run on. *)
Definition wrapInt (z : Z) : Z := (z + 2 ^ 63) mod 2 ^ 64 - 2 ^ 63.

(** [done] tells whether the field holds a channel; [doneClosed] whether
    the channel the test keeps a copy of has been closed. *)
Record messageCounterHandler : Type := {
  target : Z;
  limit : Z;
  count : Z;
  done : bool;
  doneClosed : bool;
  action : ForwardingPolicy;
  shouldWait : Z;
  waitcount : Z
}.

Definition closeDone (mch : messageCounterHandler) : messageCounterHandler :=
  {| target := target mch; limit := limit mch; count := count mch;
     done := false; doneClosed := true; action := action mch;
     shouldWait := shouldWait mch; waitcount := waitcount mch |}.

Definition incrCount (mch : messageCounterHandler) : messageCounterHandler :=
  {| target := target mch; limit := limit mch; count := wrapInt (count mch + 1);
     done := done mch; doneClosed := doneClosed mch; action := action mch;
     shouldWait := shouldWait mch; waitcount := waitcount mch |}.

(** A call told to wait resumes at [count++] once the test releases it,
    its [waitcount++] undone by [waitcount--]; the logging of a verbose
    handler changes nothing. *)
Definition Handle (mch : messageCounterHandler) (message : IncomingMessage)
    : messageCounterHandler * OutgoingMessage :=
  let mch := incrCount mch in
  let mch :=
    if negb (target mch =? 0) && done mch && (target mch <=? count mch)
    then closeDone mch else mch in
  let mch :=
    if (0 <? limit mch) && done mch && (limit mch <? count mch)
    then closeDone mch else mch in
  (mch, {| Action := action mch |}).

Definition newMessageCounter (target : Z) : messageCounterHandler :=
  {| target := target; limit := 0; count := 0; done := true; doneClosed := false;
     action := zero; shouldWait := 0; waitcount := 0 |}.

(** *** config.Local, by the fields the tests set *)

Record Local : Type := {
  NetAddress : string;
  GossipFanout : Z;
  ForceRelayMessages : bool;
  BroadcastConnectionsLimit : Z;
  EnableIncomingMessageFilter : bool;
  EnableOutgoingNetworkMessageFiltering : bool;
  IncomingMessageFilterBucketCount : nat;
  IncomingMessageFilterBucketSize : nat;
  OutgoingMessageFilterBucketCount : nat;
  OutgoingMessageFilterBucketSize : nat
}.

(** [defaultConfig] as [init] leaves it.  Of [config.GetDefaultLocal] the
    tests show that relaying is not forced, that no broadcast limit is
    set and that both filters are off until a test turns them on. *)
Definition defaultConfig : Local :=
  {| NetAddress := "127.0.0.1:0"%string;
     GossipFanout := 4;
     ForceRelayMessages := false;
     BroadcastConnectionsLimit := -1;
     EnableIncomingMessageFilter := false;
     EnableOutgoingNetworkMessageFiltering := false;
     IncomingMessageFilterBucketCount := 5;
     IncomingMessageFilterBucketSize := 512;
     OutgoingMessageFilterBucketCount := 3;
     OutgoingMessageFilterBucketSize := 128 |}.

Definition withNetAddress (addr : string) (c : Local) : Local :=
  {| NetAddress := addr;
     GossipFanout := GossipFanout c;
     ForceRelayMessages := ForceRelayMessages c;
     BroadcastConnectionsLimit := BroadcastConnectionsLimit c;
     EnableIncomingMessageFilter := EnableIncomingMessageFilter c;
     EnableOutgoingNetworkMessageFiltering := EnableOutgoingNetworkMessageFiltering c;
     IncomingMessageFilterBucketCount := IncomingMessageFilterBucketCount c;
     IncomingMessageFilterBucketSize := IncomingMessageFilterBucketSize c;
     OutgoingMessageFilterBucketCount := OutgoingMessageFilterBucketCount c;
     OutgoingMessageFilterBucketSize := OutgoingMessageFilterBucketSize c |}.



(** *** The deduplication filter *)

(** Modelled from the spec: the filter's code is not among the sources.
    A fixed number of buckets, the current one first and the oldest
    last, each holding at most [maxBucketSize] digests. *)
Record messageFilter : Type := {
  buckets : list (list Digest);
  maxBucketSize : nat
}.

Definition makeMessageFilter (bucketsCount bucketSize : nat) : messageFilter :=
  {| buckets := repeat [] bucketsCount; maxBucketSize := bucketSize |}.

(** Modelled from the spec: the query that does not insert. *)
Definition filterHas (f : messageFilter) (d : Digest) : bool :=
  existsb (existsb (Z.eqb d)) (buckets f).

(** Modelled from the spec: a new empty bucket becomes current and the
    oldest is discarded. *)
Definition rotate (f : messageFilter) : messageFilter :=
  {| buckets := [] :: removelast (buckets f); maxBucketSize := maxBucketSize f |}.

(** Modelled from the spec: [Seen(digest) -> bool], which records the
    digest in the current bucket when it was not present, and rotates
    when that bucket has reached its capacity. *)
Definition Seen (f : messageFilter) (d : Digest) : bool * messageFilter :=
  if filterHas f d then (true, f)
  else
    match buckets f with
    | [] => (false, f)
    | current :: older =>
      let f' := {| buckets := (d :: current) :: older;
                   maxBucketSize := maxBucketSize f |} in
      (false,
       if (maxBucketSize f <=? length (d :: current))%nat then rotate f' else f')
    end.

(** *** Peers *)

(** A peer of the node: [peerID] stands for the pointer the tests compare,
    [conn] lists the frames written to the connection so far. *)
Record wsPeer : Type := {
  peerID : nat;
  sendBufferHighPrio : chan sendMessage;
  sendBufferBulk : chan sendMessage;
  prioAddress : bytes;
  prioWeight : Z;
  outgoingMsgFilter : messageFilter;
  conn : list (Tag * bytes)
}.

Definition withSendBuffers (hp bulk : chan sendMessage) (p : wsPeer) : wsPeer :=
  {| peerID := peerID p; sendBufferHighPrio := hp; sendBufferBulk := bulk;
     prioAddress := prioAddress p; prioWeight := prioWeight p;
     outgoingMsgFilter := outgoingMsgFilter p; conn := conn p |}.

Definition withConn (c : list (Tag * bytes)) (p : wsPeer) : wsPeer :=
  {| peerID := peerID p; sendBufferHighPrio := sendBufferHighPrio p;
     sendBufferBulk := sendBufferBulk p;
     prioAddress := prioAddress p; prioWeight := prioWeight p;
     outgoingMsgFilter := outgoingMsgFilter p; conn := c |}.

(** *** The node *)

Record WebsocketNetwork : Type := {
  config : Local;
  GenesisID : string;
  peers : list wsPeer;
  broadcastQueueHighPrio : chan broadcastRequest;
  broadcastQueueBulk : chan broadcastRequest;
  handlers : list (Tag * messageCounterHandler);
  incomingMsgFilter : messageFilter;
  relayMessages : bool
}.

Definition withPeers (ps : list wsPeer) (wn : WebsocketNetwork) : WebsocketNetwork :=
  {| config := config wn; GenesisID := GenesisID wn; peers := ps;
     broadcastQueueHighPrio := broadcastQueueHighPrio wn;
     broadcastQueueBulk := broadcastQueueBulk wn;
     handlers := handlers wn; incomingMsgFilter := incomingMsgFilter wn;
     relayMessages := relayMessages wn |}.

Definition withBroadcastQueueHighPrio (q : chan broadcastRequest)
    (wn : WebsocketNetwork) : WebsocketNetwork :=
  {| config := config wn; GenesisID := GenesisID wn; peers := peers wn;
     broadcastQueueHighPrio := q;
     broadcastQueueBulk := broadcastQueueBulk wn;
     handlers := handlers wn; incomingMsgFilter := incomingMsgFilter wn;
     relayMessages := relayMessages wn |}.

Definition withBroadcastQueueBulk (q : chan broadcastRequest)
    (wn : WebsocketNetwork) : WebsocketNetwork :=
  {| config := config wn; GenesisID := GenesisID wn; peers := peers wn;
     broadcastQueueHighPrio := broadcastQueueHighPrio wn;
     broadcastQueueBulk := q;
     handlers := handlers wn; incomingMsgFilter := incomingMsgFilter wn;
     relayMessages := relayMessages wn |}.

Definition withHandlers (hs : list (Tag * messageCounterHandler))
    (wn : WebsocketNetwork) : WebsocketNetwork :=
  {| config := config wn; GenesisID := GenesisID wn; peers := peers wn;
     broadcastQueueHighPrio := broadcastQueueHighPrio wn;
     broadcastQueueBulk := broadcastQueueBulk wn;
     handlers := hs; incomingMsgFilter := incomingMsgFilter wn;
     relayMessages := relayMessages wn |}.

Definition withIncomingMsgFilter (f : messageFilter)
    (wn : WebsocketNetwork) : WebsocketNetwork :=
  {| config := config wn; GenesisID := GenesisID wn; peers := peers wn;
     broadcastQueueHighPrio := broadcastQueueHighPrio wn;
     broadcastQueueBulk := broadcastQueueBulk wn;
     handlers := handlers wn; incomingMsgFilter := f;
     relayMessages := relayMessages wn |}.


Section Node.

Context `{Params}.

(** Modelled from the spec: [setup], which is not among the sources.  By
    default only a relay node forwards, and a configuration flag forces
    relaying on an edge node; the edge nodes of
    [TestForceMessageRelaying] are those with no address to listen on.
    The queues and the filter start empty. *)
Definition setup (conf : Local) (genesisID : string) : WebsocketNetwork :=
  {| config := conf;
     GenesisID := genesisID;
     peers := [];
     broadcastQueueHighPrio := makeChan broadcastRequest broadcastQueueLength;
     broadcastQueueBulk := makeChan broadcastRequest broadcastQueueLength;
     handlers := [];
     incomingMsgFilter :=
       makeMessageFilter (IncomingMessageFilterBucketCount conf)
                         (IncomingMessageFilterBucketSize conf);
     relayMessages :=
       negb (String.eqb (NetAddress conf) "") || ForceRelayMessages conf |}.

Definition makeTestWebsocketNodeWithConfig (conf : Local) : WebsocketNetwork :=
  setup conf "go-test-network-genesis".

Definition makeTestWebsocketNode : WebsocketNetwork :=
  makeTestWebsocketNodeWithConfig defaultConfig.


(** Modelled from the spec: the table of handlers is extended, or
    emptied. *)
Definition RegisterHandlers (hs : list (Tag * messageCounterHandler))
    (wn : WebsocketNetwork) : WebsocketNetwork :=
  withHandlers (handlers wn ++ hs) wn.


(** A connection that has just been set up, with empty send buffers. *)
Definition newPeer (conf : Local) (id : nat) : wsPeer :=
  {| peerID := id;
     sendBufferHighPrio := makeChan sendMessage sendBufferLength;
     sendBufferBulk := makeChan sendMessage sendBufferLength;
     prioAddress := [];
     prioWeight := 0;
     outgoingMsgFilter :=
       makeMessageFilter (OutgoingMessageFilterBucketCount conf)
                         (OutgoingMessageFilterBucketSize conf);
     conn := [] |}.

(** Modelled from the spec: no peer is present twice. *)
Definition addPeer (p : wsPeer) (wn : WebsocketNetwork) : WebsocketNetwork :=
  if existsb (fun q => Nat.eqb (peerID q) (peerID p)) (peers wn) then wn
  else withPeers (peers wn ++ [p]) wn.

(** **** Broadcasting *)

(** The test file's own entry point: [Broadcast] without waiting, the
    time of enqueueing given by the caller. *)
Definition broadcastWithTimestamp (wn : WebsocketNetwork) (tag : Tag) (data : bytes)
    (when : Time) : WebsocketNetwork * option error :=
  let request := {| tag := tag; data := data; except := None; enqueueTime := when |} in
  let prio := highPriorityTag tag in
  let broadcastQueue :=
    if prio then broadcastQueueHighPrio wn else broadcastQueueBulk wn in
  match trySend broadcastQueue request with
  | Some q =>
    (if prio then withBroadcastQueueHighPrio q wn else withBroadcastQueueBulk q wn,
     None)
  | None => (wn, Some errBcastQFull)
  end.

(** Modelled from the spec: [Broadcast], which is not among the sources:
    the request carries the time of the call and the peer to leave out,
    and goes on the node-level queue its tag selects, without blocking. *)
Definition Broadcast (wn : WebsocketNetwork) (now : Time) (tag : Tag) (data : bytes)
    (except : option nat) : WebsocketNetwork * option error :=
  let request := {| tag := tag; data := data; except := except; enqueueTime := now |} in
  let prio := highPriorityTag tag in
  let broadcastQueue :=
    if prio then broadcastQueueHighPrio wn else broadcastQueueBulk wn in
  match trySend broadcastQueue request with
  | Some q =>
    (if prio then withBroadcastQueueHighPrio q wn else withBroadcastQueueBulk q wn,
     None)
  | None => (wn, Some errBcastQFull)
  end.


(** Modelled from the spec: the non-blocking send onto one of a peer's two
    queues; a message that finds its queue full is dropped. *)
Definition peerSend (p : wsPeer) (prio : bool) (m : sendMessage) : wsPeer * bool :=
  if prio then
    match trySend (sendBufferHighPrio p) m with
    | Some q => (withSendBuffers q (sendBufferBulk p) p, true)
    | None => (p, false)
    end
  else
    match trySend (sendBufferBulk p) m with
    | Some q => (withSendBuffers (sendBufferHighPrio p) q p, true)
    | None => (p, false)
    end.

(** Modelled from the spec: the peer a request leaves out, and the peer
    the outbound filter knows to have the content. *)
Definition peerExcluded (request : broadcastRequest) (p : wsPeer) : bool :=
  match except request with
  | Some id => Nat.eqb id (peerID p)
  | None => false
  end.

Definition peerHasContent (conf : Local) (request : broadcastRequest) (p : wsPeer) : bool :=
  EnableOutgoingNetworkMessageFiltering conf
  && filterHas (outgoingMsgFilter p) (messageDigest (tag request) (data request)).

Definition sendToPeer (conf : Local) (prio : bool) (request : broadcastRequest)
    (p : wsPeer) : wsPeer :=
  if peerExcluded request p then p
  else if peerHasContent conf request p then p
  else
    fst (peerSend p prio
           {| msg_tag := tag request; msg_data := data request;
              enqueued := enqueueTime request |}).

(** Modelled from the spec: the dispatch step.  A request older than
    [maxMessageQueueDuration] is dropped; any other is put on the queue
    of every current peer, but for the excluded peer and for a peer the
    outbound filter knows to have the content already. *)
Definition dispatch (now : Time) (prio : bool) (request : broadcastRequest)
    (wn : WebsocketNetwork) : WebsocketNetwork :=
  if maxMessageQueueDuration <? now - enqueueTime request then wn
  else withPeers (map (sendToPeer (config wn) prio request) (peers wn)) wn.

(** Modelled from the spec: the dispatch loop run until both node-level
    queues are empty, the high-priority queue first. *)
Definition dispatchLoop (now : Time) (wn : WebsocketNetwork) : WebsocketNetwork :=
  let high := buf (broadcastQueueHighPrio wn) in
  let bulk := buf (broadcastQueueBulk wn) in
  let wn :=
    withBroadcastQueueBulk (mkChan [] (cap (broadcastQueueBulk wn)))
      (withBroadcastQueueHighPrio (mkChan [] (cap (broadcastQueueHighPrio wn))) wn) in
  let wn := fold_left (fun w r => dispatch now true r w) high wn in
  fold_left (fun w r => dispatch now false r w) bulk wn.

(** Modelled from the spec: what a peer's writer does with one message:
    one that has waited longer than [maxMessageQueueDuration] is dropped,
    any other is framed and written to the connection. *)
Definition writerSend (now : Time) (p : wsPeer) (m : sendMessage) : wsPeer :=
  if maxMessageQueueDuration <? now - enqueued m then p
  else withConn (conn p ++ [(msg_tag m, msg_data m)]) p.

(** Modelled from the spec: the write loop run until both of the peer's
    queues are empty, the high-priority queue drained first. *)
Definition writeLoop (now : Time) (p : wsPeer) : wsPeer :=
  let pending := buf (sendBufferHighPrio p) ++ buf (sendBufferBulk p) in
  fold_left (writerSend now) pending
    (withSendBuffers (mkChan [] (cap (sendBufferHighPrio p)))
                     (mkChan [] (cap (sendBufferBulk p))) p).

(** The dispatch loop at [now], then every peer's writer at [later]. *)
Definition flush (now later : Time) (wn : WebsocketNetwork) : WebsocketNetwork :=
  let wn := dispatchLoop now wn in
  withPeers (map (writeLoop later) (peers wn)) wn.

(** **** Receiving *)

(** Modelled from the spec: the multiplexer is a table from tags to
    handlers; a message whose tag has no handler is ignored. *)
Fixpoint multiplex (hs : list (Tag * messageCounterHandler))
    (m : IncomingMessage) : list (Tag * messageCounterHandler) * OutgoingMessage :=
  match hs with
  | [] => ([], {| Action := Ignore |})
  | (t, h) :: rest =>
    if String.eqb t (Tag_ m) then
      let (h', out) := Handle h m in ((t, h') :: rest, out)
    else
      let (rest', out) := multiplex rest m in ((t, h) :: rest', out)
  end.

(** Modelled from the spec: the reader worker, which hands the message to
    the multiplexer and carries out the action that comes back. *)
Definition readerWorker (now : Time) (wn : WebsocketNetwork)
    (m : IncomingMessage) : WebsocketNetwork :=
  let (hs, out) := multiplex (handlers wn) m in
  let wn := withHandlers hs wn in
  match Action out with
  | Ignore => wn
  | Policy.Broadcast => fst (Broadcast wn now (Tag_ m) (Data m) (Some (Sender m)))
  | Disconnect =>
    withPeers (filter (fun p => negb (Nat.eqb (peerID p) (Sender m))) (peers wn)) wn
  end.

(** Modelled from the spec: the read loop, which passes a decoded frame
    through the inbound filter before handing it on.  [TestDupFilter]
    makes its payload one byte longer than [messageFilterSize]: the
    filter is taken to look at no message shorter than that size. *)
Definition readLoop (now : Time) (wn : WebsocketNetwork) (m : IncomingMessage)
    : WebsocketNetwork :=
  if EnableIncomingMessageFilter (config wn)
     && (messageFilterSize <=? length (Data m))%nat then
    let (seen, f) := Seen (incomingMsgFilter wn) (messageDigest (Tag_ m) (Data m)) in
    let wn := withIncomingMsgFilter f wn in
    if seen then wn else readerWorker now wn m
  else readerWorker now wn m.

(** The frames a peer's connection carries, as its far end reads them. *)
Definition incoming (sender : nat) (frames : list (Tag * bytes)) : list IncomingMessage :=
  map (fun f => {| Sender := sender; Tag_ := fst f; Data := snd f |}) frames.

Definition receiveAll (now : Time) (wn : WebsocketNetwork) (ms : list IncomingMessage)
    : WebsocketNetwork :=
  fold_left (readLoop now) ms wn.


(** **** What a flush delivers *)

Definition fresh (now : Time) (t : Time) : bool :=
  negb (maxMessageQueueDuration <? now - t).

Definition queued (wn : WebsocketNetwork) : list broadcastRequest :=
  buf (broadcastQueueHighPrio wn) ++ buf (broadcastQueueBulk wn).

Definition frameOf (r : broadcastRequest) : Tag * bytes := (tag r, data r).

Definition msgOf (r : broadcastRequest) : sendMessage :=
  {| msg_tag := tag r; msg_data := data r; enqueued := enqueueTime r |}.

(** A peer with [ms] appended to the queue [prio] selects. *)
Definition pushAll (prio : bool) (ms : list sendMessage) (p : wsPeer) : wsPeer :=
  if prio then
    withSendBuffers
      (mkChan (buf (sendBufferHighPrio p) ++ ms) (cap (sendBufferHighPrio p)))
      (sendBufferBulk p) p
  else
    withSendBuffers (sendBufferHighPrio p)
      (mkChan (buf (sendBufferBulk p) ++ ms) (cap (sendBufferBulk p))) p.

(** A handler after [n] calls of [Handle], which does not look at the
    message beyond logging it. *)
Definition handled (n : nat) (h : messageCounterHandler) : messageCounterHandler :=
  Nat.iter n (fun h => fst (Handle h {| Sender := 0; Tag_ := EmptyString; Data := [] |})) h.

Definition reaches (conf : Local) (p : wsPeer) (r : broadcastRequest) : bool :=
  negb (peerExcluded r p) && negb (peerHasContent conf r p).

Definition delivered (now later : Time) (conf : Local) (p : wsPeer)
    (r : broadcastRequest) : bool :=
  fresh now (enqueueTime r) && fresh later (enqueueTime r) && reaches conf p r.

(** A peer whose writer has caught up, with room for [n] messages on
    either queue. *)
Definition idle (n : nat) (p : wsPeer) : Prop :=
  buf (sendBufferHighPrio p) = [] /\ buf (sendBufferBulk p) = []
  /\ (n <= cap (sendBufferHighPrio p))%nat /\ (n <= cap (sendBufferBulk p))%nat.

(** The node-level queue a tag selects. *)
Definition broadcastQueueFor (t : Tag) (wn : WebsocketNetwork) : chan broadcastRequest :=
  if highPriorityTag t then broadcastQueueHighPrio wn else broadcastQueueBulk wn.

Definition otherQueueFor (t : Tag) (wn : WebsocketNetwork) : chan broadcastRequest :=
  if highPriorityTag t then broadcastQueueBulk wn else broadcastQueueHighPrio wn.

Definition hasRoom {A : Type} (c : chan A) : bool := (length (buf c) <? cap c)%nat.

(** The request [broadcastWithTimestamp] builds, and a node with [rs]
    appended to the queue their tag selects. *)
Definition requestAt (t : Tag) (d : bytes) (when : Time) : broadcastRequest :=
  {| tag := t; data := d; except := None; enqueueTime := when |}.

Definition withQueued (t : Tag) (rs : list broadcastRequest)
    (wn : WebsocketNetwork) : WebsocketNetwork :=
  if highPriorityTag t then
    withBroadcastQueueHighPrio
      (mkChan (buf (broadcastQueueHighPrio wn) ++ rs) (cap (broadcastQueueHighPrio wn))) wn
  else
    withBroadcastQueueBulk
      (mkChan (buf (broadcastQueueBulk wn) ++ rs) (cap (broadcastQueueBulk wn))) wn.

(** **** The tests' scenarios *)

Definition noAddressConfig : Local := withNetAddress "" defaultConfig.

(** A call of [broadcastWithTimestamp] per stamp, errors collected. *)
Definition broadcastStamps (wn : WebsocketNetwork) (t : Tag) (d : bytes)
    (stamps : list Time) : WebsocketNetwork * list (option error) :=
  fold_left
    (fun acc when =>
       let (w, e) := broadcastWithTimestamp (fst acc) t d when in (w, snd acc ++ [e]))
    stamps (wn, []).

(** [currentTime.Add(time.Hour*time.Duration(i-5))] for [i] from 0 to 9. *)
Definition delayedStamps (currentTime : Time) : list Time :=
  map (fun i => currentTime + Hour * (Z.of_nat i - 5)) (seq 0 10).

Definition foo : bytes := list_byte_of_string "foo".

(** [TestDelayedMessageDrop]: node A, to which node B has connected,
    broadcasts ten messages stamped around [currentTime]; the dispatch
    loop runs at [now], the writer at [later], and B counts what its
    connection to A carries.  The result is the errors A's calls
    returned and B's counter. *)
Definition TestDelayedMessageDrop (currentTime now later : Time)
    : list (option error) * messageCounterHandler :=
  let netA := addPeer (newPeer defaultConfig 1) makeTestWebsocketNode in
  let netB :=
    RegisterHandlers [(debugTag, newMessageCounter 5)]
      (addPeer (newPeer noAddressConfig 0)
         (makeTestWebsocketNodeWithConfig noAddressConfig)) in
  let (netA, errs) := broadcastStamps netA debugTag foo (delayedStamps currentTime) in
  let netA := flush now later netA in
  let frames := flat_map conn (peers netA) in
  let netB := receiveAll later netB (incoming 0 frames) in
  (errs,
   match handlers netB with
   | (_, counter) :: _ => counter
   | [] => newMessageCounter 5
   end).





End Node.

(** Parameters to run the scenarios with. *)
Definition sampleParams : Params :=
  {| highPriorityTag := fun t => String.eqb t "PP";
     maxMessageQueueDuration := 25 * Second;
     messageFilterSize := 5;
     messageDigest :=
       fun t d => fold_left (fun acc b => 256 * acc + Z.of_N (Byte.to_N b))
                    (list_byte_of_string t ++ d) 1;
     broadcastQueueLength := 100 |}.

(** Node A of [TestDelayedMessageDrop] once its ten broadcasts are
    queued, and a request stamped an hour back. *)
Definition sampleNode : WebsocketNetwork :=
  fst (broadcastStamps (H := sampleParams)
         (addPeer (newPeer defaultConfig 1) (makeTestWebsocketNode (H := sampleParams)))
         debugTag foo (delayedStamps 1000)).

Definition sampleStale : broadcastRequest := requestAt debugTag foo (1000 - Hour).





End Network.

(** ** More of the selector: configurations and ledgers to compare *)

Module AgreementMore.
Import Go Basics Config Agreement.

Definition withIncorrectBalLookback (b : bool) (cparams : ConsensusParams)
    : ConsensusParams :=
  {| TwinSeeds := TwinSeeds cparams;
     SeedLookback := SeedLookback cparams;
     SeedRefreshInterval := SeedRefreshInterval cparams;
     IncorrectBalLookback := b |}.

(** Two ledgers over integers that answer alike at the rounds
    [membership] asks about for round 1000, and differently elsewhere:
    the second knows no other round. *)
Definition sampleParamsRound (r : Round) : Round := SubSaturate r 2.

Definition sampleLedger : LedgerReader Z Z Z Z Z :=
  {| ConsensusParams_ := fun _ => (sampleConsensus, None);
     BalanceRecord_ := fun rnd addr => (rnd + addr, None);
     Circulation := fun rnd => (10 * rnd, None);
     Seed_ := fun rnd => (rnd + 7, None) |}.

Definition sparseLedger : LedgerReader Z Z Z Z Z :=
  {| ConsensusParams_ :=
       fun rnd => if rnd =? 998 then (sampleConsensus, None)
                  else (sampleConsensus, Some (LedgerErr 1));
     BalanceRecord_ :=
       fun rnd addr => if rnd =? 799 then (rnd + addr, None) else (0, Some (LedgerErr 2));
     Circulation :=
       fun rnd => if rnd =? 799 then (10 * rnd, None) else (0, Some (LedgerErr 3));
     Seed_ := fun rnd => if rnd =? 998 then (rnd + 7, None) else (0, Some (LedgerErr 4)) |}.

(** A ledger whose circulation and seed queries both fail. *)
Definition brokenLedger : LedgerReader Z Z Z Z Z :=
  {| ConsensusParams_ := fun _ => (sampleConsensus, None);
     BalanceRecord_ := fun rnd addr => (rnd + addr, None);
     Circulation := fun rnd => (0, Some (LedgerErr 3));
     Seed_ := fun rnd => (0, Some (LedgerErr 4)) |}.

End AgreementMore.

(** ** encoding/binary, as the handlers of the test file use it *)

Module Binary.
Import Go Network.

(** Go's conversions [byte(v)], which keeps the low eight bits, and
    [uint64(b)]. *)
Definition byte_of_Z (z : Z) : Byte.byte :=
  match Byte.of_N (Z.to_N (z mod 256)) with
  | Some b => b
  | None => Byte.x00
  end.

Definition Z_of_byte (b : Byte.byte) : Z := Z.of_N (Byte.to_N b).

(** [binary.LittleEndian.PutUint64(b, v)]: eight bytes of [b] are
    overwritten; a slice shorter than that makes the call panic, which
    is [None] here. *)
Definition PutUint64 (b : bytes) (v : Z) : option bytes :=
  if (length b <? 8)%nat then None
  else Some ([byte_of_Z v; byte_of_Z (Z.shiftr v 8); byte_of_Z (Z.shiftr v 16);
              byte_of_Z (Z.shiftr v 24); byte_of_Z (Z.shiftr v 32);
              byte_of_Z (Z.shiftr v 40); byte_of_Z (Z.shiftr v 48);
              byte_of_Z (Z.shiftr v 56)] ++ skipn 8 b).

(** [binary.LittleEndian.Uint64(b)], with the same panic. *)
Definition Uint64 (b : bytes) : option Z :=
  match b with
  | b0 :: b1 :: b2 :: b3 :: b4 :: b5 :: b6 :: b7 :: _ =>
    Some (Z.lor (Z_of_byte b0)
         (Z.lor (Z.shiftl (Z_of_byte b1) 8)
         (Z.lor (Z.shiftl (Z_of_byte b2) 16)
         (Z.lor (Z.shiftl (Z_of_byte b3) 24)
         (Z.lor (Z.shiftl (Z_of_byte b4) 32)
         (Z.lor (Z.shiftl (Z_of_byte b5) 40)
         (Z.lor (Z.shiftl (Z_of_byte b6) 48)
                (Z.shiftl (Z_of_byte b7) 56))))))))
  | _ => None
  end.

End Binary.

(** ** network: the handlers of the test file, continued *)

Module Handlers.
Import Go Network Binary.

(** How a call ends: it returns, it panics, or it waits on a channel
    with no room. *)
Inductive outcome (A : Type) : Type :=
| Returns (a : A)
| Panics
| Blocks.

Arguments Returns {A} _.
Arguments Panics {A}.
Arguments Blocks {A}.

(** *** messageCounterHandler *)



(** What the verbose branch of [Handle] logs at time [now]: nothing
    unless the handler is verbose and the message is eight bytes long,
    and then [now] less the time the message carries. *)
Definition transitTime (verbose : bool) (now : Z) (message : IncomingMessage)
    : outcome (option Z) :=
  if verbose && (length (Data message) =? 8)%nat then
    match Uint64 (Data message) with
    | Some u => let sent := wrapInt u in Returns (Some (wrapInt (now - sent)))
    | None => Panics
    end
  else Returns None.

(** [TestLineNetwork]'s payload for a message sent at [sendTime]. *)
Definition timeblob (sendTime : Z) : option bytes :=
  PutUint64 (repeat Byte.x00 8) (wrap64 sendTime).

(** *** benchmarkHandler *)

Record benchmarkHandler : Type := { returns : chan Z }.

(** [bh.returns <- i] waits while the channel has no room. *)
Definition benchmarkHandle (bh : benchmarkHandler) (message : IncomingMessage)
    : outcome (benchmarkHandler * OutgoingMessage) :=
  match Uint64 (Data message) with
  | None => Panics
  | Some i =>
    match trySend (returns bh) i with
    | Some q => Returns ({| returns := q |}, {| Action := zero |})
    | None => Blocks
    end
  end.

(** The message [BenchmarkWebsocketNetworkBasic] broadcasts on its
    [i]-th turn. *)
Definition msgSize : nat := 200.

Definition benchmarkMessage (i : Z) : option bytes :=
  PutUint64 (repeat Byte.x00 msgSize) (wrap64 i).

End Handlers.

(** ** deploy_private_version.sh: the options and their checks *)

Module Deploy.

(** The shell variables the option loop sets. *)
Record Options : Type := {
  CHANNEL : string;
  DEFAULTNETWORK : string;
  NETWORK : string;
  GENESISFILE : string;
  BUCKET : string
}.

Definition initial : Options :=
  {| CHANNEL := ""; DEFAULTNETWORK := ""; NETWORK := ""; GENESISFILE := ""; BUCKET := "" |}.

Definition withCHANNEL (v : string) (o : Options) : Options :=
  {| CHANNEL := v; DEFAULTNETWORK := DEFAULTNETWORK o; NETWORK := NETWORK o;
     GENESISFILE := GENESISFILE o; BUCKET := BUCKET o |}.

Definition withDEFAULTNETWORK (v : string) (o : Options) : Options :=
  {| CHANNEL := CHANNEL o; DEFAULTNETWORK := v; NETWORK := NETWORK o;
     GENESISFILE := GENESISFILE o; BUCKET := BUCKET o |}.

Definition withNETWORK (v : string) (o : Options) : Options :=
  {| CHANNEL := CHANNEL o; DEFAULTNETWORK := DEFAULTNETWORK o; NETWORK := v;
     GENESISFILE := GENESISFILE o; BUCKET := BUCKET o |}.

Definition withGENESISFILE (v : string) (o : Options) : Options :=
  {| CHANNEL := CHANNEL o; DEFAULTNETWORK := DEFAULTNETWORK o; NETWORK := NETWORK o;
     GENESISFILE := v; BUCKET := BUCKET o |}.

Definition withBUCKET (v : string) (o : Options) : Options :=
  {| CHANNEL := CHANNEL o; DEFAULTNETWORK := DEFAULTNETWORK o; NETWORK := NETWORK o;
     GENESISFILE := GENESISFILE o; BUCKET := v |}.

(** The script either exits, with a status and the lines it has
    printed, or goes on with its variables. *)
Inductive status : Type :=
| Exit (code : Z) (output : list string)
| GoesOn (o : Options).

(** The assignment an option stands for, if it is one of the five. *)
Definition option_ (arg : string) : option (string -> Options -> Options) :=
  if (arg =? "-c")%string then Some withCHANNEL
  else if (arg =? "-g")%string then Some withDEFAULTNETWORK
  else if (arg =? "-n")%string then Some withNETWORK
  else if (arg =? "-f")%string then Some withGENESISFILE
  else if (arg =? "-b")%string then Some withBUCKET
  else None.

(** The [while] loop over the positional parameters.  [$1] expands to
    the empty string once they are used up; an option's [shift] makes
    the next parameter its value, and the [shift] that ends the turn
    fails when no parameter is left, which under [set -e] ends the
    script with status 1. *)
Fixpoint options (args : list string) (o : Options) : status :=
  match args with
  | [] => GoesOn o
  | arg :: rest =>
    if (arg =? "")%string then GoesOn o
    else
      match option_ arg with
      | Some assign =>
        match rest with
        | [] => Exit 1 []
        | value :: rest' => options rest' (assign value o)
        end
      | None => Exit 1 [("Unknown option " ++ arg)%string]
      end
  end.

Definition syntax : list string :=
  ["Syntax: deploy_private_version -c <channel> [ -g <genesis-network> | -f <genesis-file> ] -n <network>"%string;
   "e.g. deploy_private_version.sh -c TestCatchup -g testnet -n testnetwork"%string].

(** The two checks after the loop. *)
Definition checks (o : Options) : status :=
  if (CHANNEL o =? "")%string || (NETWORK o =? "")%string
     || (DEFAULTNETWORK o =? "")%string && (GENESISFILE o =? "")%string
  then Exit 1 syntax
  else if (DEFAULTNETWORK o =? "")%string then GoesOn (withDEFAULTNETWORK "devnet" o)
  else if negb (DEFAULTNETWORK o =? "devnet")%string
          && negb (DEFAULTNETWORK o =? "testnet")%string
  then Exit 1 ["genesis-network needs to be either devnet or testnet"%string]
  else GoesOn o.

(** From the parameters to the variables the build is run with. *)
Definition deploy_options (args : list string) : status :=
  match options args initial with
  | Exit code output => Exit code output
  | GoesOn o => checks o
  end.

End Deploy.

(* ================================================================== *)
(** * Part II.  Lemmas and theorems *)
(* ================================================================== *)

(** ** Unsigned arithmetic *)

Module GoFacts.
Import Go.

Lemma uint64_modulus_pos : 0 < uint64_modulus.
Proof. reflexivity. Qed.

Lemma wrap64_range (z : Z) : is_uint64 (wrap64 z).
Proof. unfold is_uint64, wrap64. apply Z.mod_pos_bound, uint64_modulus_pos. Qed.

Lemma wrap64_small (z : Z) : is_uint64 z -> wrap64 z = z.
Proof. unfold is_uint64, wrap64. intros Hz. now apply Z.mod_small. Qed.

Lemma mul64_mul64 (a b c : Z) : mul64 (mul64 a b) c = wrap64 (a * b * c).
Proof. unfold mul64, wrap64. now rewrite Z.mul_mod_idemp_l. Qed.

Lemma add64_add64_mul64 (a b c d : Z) :
  add64 (add64 (mul64 a b) c) d = wrap64 (a * b + c + d).
Proof.
  unfold add64, mul64, wrap64.
  rewrite Z.add_mod_idemp_l by discriminate.
  rewrite <- Z.add_assoc, Z.add_mod_idemp_l by discriminate.
  now rewrite Z.add_assoc.
Qed.

Lemma SubSaturate_spec (a b : Z) :
  is_uint64 a -> is_uint64 b ->
  Basics.SubSaturate a b = (if b <=? a then a - b else 0).
Proof.
  intros Ha Hb. unfold Basics.SubSaturate, sub64.
  destruct (Z.ltb_spec a b) as [Hlt | Hge];
    destruct (Z.leb_spec b a) as [Hle | Hgt]; try lia; try reflexivity.
  apply wrap64_small. unfold is_uint64 in *. lia.
Qed.

End GoFacts.

(** ** agreement/selector.go *)

Module SelectorSpec.
Import Go Basics Config Agreement GoFacts.

Lemma balanceRound_SubSaturate (r : Round) (cparams : ConsensusParams) :
  balanceRound r cparams
  = SubSaturate (balanceFrom r cparams) (balanceLookback cparams).
Proof.
  unfold balanceRound, balanceFrom, balanceLookback.
  destruct (TwinSeeds cparams); cbn [negb andb].
  - now rewrite mul64_mul64.
  - rewrite add64_add64_mul64. now destruct (IncorrectBalLookback cparams).
Qed.

Lemma balanceFrom_range (r : Round) (cparams : ConsensusParams) :
  is_uint64 r -> is_uint64 (balanceFrom r cparams).
Proof.
  intros Hr. unfold balanceFrom.
  destruct (negb (TwinSeeds cparams) && IncorrectBalLookback cparams);
    [apply wrap64_range | exact Hr].
Qed.

Lemma balanceLookback_range (cparams : ConsensusParams) :
  is_uint64 (balanceLookback cparams).
Proof. unfold balanceLookback. destruct (TwinSeeds cparams); apply wrap64_range. Qed.

(** C9.  For a round and consensus parameters that are [uint64] values,
    [seedRound] is [r - SeedLookback] when [r] is at least [SeedLookback]
    and 0 otherwise, and [balanceRound] is its lookback
    ([2*SeedRefreshInterval*SeedLookback] under [TwinSeeds], otherwise
    [2*SeedRefreshInterval+SeedLookback+1]) subtracted from [r] (from
    [r+2] under [IncorrectBalLookback]), 0 where the lookback is the
    larger: neither result wraps below zero. *)
Theorem seedRound_balanceRound_saturate (r : Round) (cparams : ConsensusParams) :
  is_uint64 r ->
  is_uint64 (SeedLookback cparams) ->
  seedRound r cparams
  = (if SeedLookback cparams <=? r then r - SeedLookback cparams else 0)
  /\ balanceRound r cparams
     = (if balanceLookback cparams <=? balanceFrom r cparams
        then balanceFrom r cparams - balanceLookback cparams else 0)
  /\ 0 <= seedRound r cparams <= r
  /\ 0 <= balanceRound r cparams <= balanceFrom r cparams.
Proof.
  intros Hr Hs.
  assert (Hseed : seedRound r cparams
                  = if SeedLookback cparams <=? r then r - SeedLookback cparams else 0).
  { unfold seedRound. now apply SubSaturate_spec. }
  assert (Hbal : balanceRound r cparams
                 = if balanceLookback cparams <=? balanceFrom r cparams
                   then balanceFrom r cparams - balanceLookback cparams else 0).
  { rewrite balanceRound_SubSaturate.
    apply SubSaturate_spec; [now apply balanceFrom_range | apply balanceLookback_range]. }
  pose proof (balanceFrom_range r cparams Hr) as Hf.
  pose proof (balanceLookback_range cparams) as Hl.
  unfold is_uint64 in *.
  repeat split; try assumption.
  - rewrite Hseed. destruct (Z.leb_spec (SeedLookback cparams) r); lia.
  - rewrite Hseed. destruct (Z.leb_spec (SeedLookback cparams) r); lia.
  - rewrite Hbal.
    destruct (Z.leb_spec (balanceLookback cparams) (balanceFrom r cparams)); lia.
  - rewrite Hbal.
    destruct (Z.leb_spec (balanceLookback cparams) (balanceFrom r cparams)); lia.
Qed.

Lemma seedRound_balanceRound_saturate_witness :
  (is_uint64 1000 /\ is_uint64 (SeedLookback sampleConsensus))
  /\ seedRound 1000 sampleConsensus
     = (if SeedLookback sampleConsensus <=? 1000
        then 1000 - SeedLookback sampleConsensus else 0)
  /\ balanceRound 1000 sampleConsensus
     = (if balanceLookback sampleConsensus <=? balanceFrom 1000 sampleConsensus
        then balanceFrom 1000 sampleConsensus - balanceLookback sampleConsensus else 0)
  /\ 0 <= seedRound 1000 sampleConsensus <= 1000
  /\ 0 <= balanceRound 1000 sampleConsensus <= balanceFrom 1000 sampleConsensus.
Proof.
  assert (H1 : is_uint64 1000) by (vm_compute; split; [discriminate | reflexivity]).
  assert (H2 : is_uint64 (SeedLookback sampleConsensus))
    by (vm_compute; split; [discriminate | reflexivity]).
  split; [split; assumption |].
  apply (seedRound_balanceRound_saturate 1000 sampleConsensus H1 H2).
Defined.

Example seedRound_early : seedRound 1 sampleConsensus = 0.
Proof. reflexivity. Qed.

Example seedRound_late : seedRound 1000 sampleConsensus = 998.
Proof. reflexivity. Qed.

Example balanceRound_early : balanceRound 200 sampleConsensus = 0.
Proof. reflexivity. Qed.

Example balanceRound_late : balanceRound 1000 sampleConsensus = 799.
Proof. reflexivity. Qed.

(** [r + 2] is a [uint64] sum: for the last round it is 1. *)
Example balanceRound_last : balanceRound (2 ^ 64 - 1) sampleConsensus = 0.
Proof. reflexivity. Qed.

(** Where nothing overflows, the rounds are the plain differences cut
    off at 0. *)
Corollary balanceRound_no_overflow (r : Round) (cparams : ConsensusParams) :
  is_uint64 r ->
  0 <= SeedRefreshInterval cparams -> 0 <= SeedLookback cparams ->
  2 * SeedRefreshInterval cparams * SeedLookback cparams < uint64_modulus ->
  2 * SeedRefreshInterval cparams + SeedLookback cparams + 1 < uint64_modulus ->
  r + 2 < uint64_modulus ->
  balanceRound r cparams
  = Z.max 0
      ((if negb (TwinSeeds cparams) && IncorrectBalLookback cparams then r + 2 else r)
       - (if TwinSeeds cparams
          then 2 * SeedRefreshInterval cparams * SeedLookback cparams
          else 2 * SeedRefreshInterval cparams + SeedLookback cparams + 1)).
Proof.
  intros Hr Hi Hl Hm Ha Hr2.
  rewrite balanceRound_SubSaturate.
  rewrite SubSaturate_spec
    by (try apply balanceFrom_range; try apply balanceLookback_range; assumption).
  unfold balanceFrom, balanceLookback, is_uint64 in *.
  destruct (TwinSeeds cparams); cbn [negb andb].
  - rewrite wrap64_small by (unfold is_uint64; nia).
    match goal with |- context [?a <=? ?b] => destruct (Z.leb_spec a b) end; lia.
  - rewrite (wrap64_small (2 * _ + _ + 1)) by (unfold is_uint64; lia).
    destruct (IncorrectBalLookback cparams).
    + rewrite wrap64_small by (unfold is_uint64; lia).
      match goal with |- context [?a <=? ?b] => destruct (Z.leb_spec a b) end; lia.
    + match goal with |- context [?a <=? ?b] => destruct (Z.leb_spec a b) end; lia.
Qed.

Section MembershipSpec.

Context {Seed Address BalanceRecord MicroAlgos period step LedgerError : Type}.
Context `{Zero Seed, Zero BalanceRecord, Zero MicroAlgos, Zero period, Zero step}.
Variable ParamsRound : Round -> Round.

#[local] Abbreviation error := (Agreement.error Address LedgerError).
#[local] Abbreviation LedgerReader := (Agreement.LedgerReader Seed Address BalanceRecord MicroAlgos LedgerError).

(** C8.  [membership] returns a non-nil error exactly when one of its four
    ledger queries fails: the consensus parameters, the balance record at
    the balance round, the circulation at the balance round, or the seed
    at the seed round.  When it returns no error, [Record] is that balance
    record, [TotalMoney] that circulation, and [Selector] holds that seed
    with the given round, period and step. *)
Theorem membership_error_iff (l : LedgerReader) (addr : Address) (r : Round)
    (p : period) (s : step) :
  let res := membership ParamsRound l addr r p s in
  let cparams := fst (ConsensusParams_ l (ParamsRound r)) in
  let record := BalanceRecord_ l (balanceRound r cparams) addr in
  let total := Circulation l (balanceRound r cparams) in
  let seed := Seed_ l (seedRound r cparams) in
  (failed res <->
   failed (ConsensusParams_ l (ParamsRound r))
   \/ failed record \/ failed total \/ failed seed)
  /\ (snd res = None ->
      fst res
      = {| Record_ := fst record;
           Selector := {| sel_Seed := fst seed; sel_Round := r;
                          sel_Period := p; sel_Step := s |};
           TotalMoney := fst total |}).
Proof.
  unfold membership, failed.
  destruct (ConsensusParams_ l (ParamsRound r)) as [cparams [e0|]]; cbn [fst snd].
  - split; [split; intros _; [left|]; discriminate | discriminate].
  - destruct (BalanceRecord_ l (balanceRound r cparams) addr) as [record [e1|]];
      cbn [fst snd].
    + split; [split; intros _; [right; left|]; discriminate | discriminate].
    + destruct (Circulation l (balanceRound r cparams)) as [total [e2|]];
        cbn [fst snd].
      * split; [split; intros _; [right; right; left|]; discriminate | discriminate].
      * destruct (Seed_ l (seedRound r cparams)) as [seed [e3|]]; cbn [fst snd].
        -- split; [split; intros _; [right; right; right|]; discriminate | discriminate].
        -- split; [| reflexivity].
           split; [intros E; now elim E | intros [E | [E | [E | E]]]; now elim E].
Qed.

(** On every failure the membership handed back is the zero value. *)
Lemma membership_error_zero (l : LedgerReader) (addr : Address) (r : Round)
    (p : period) (s : step) :
  failed (membership ParamsRound l addr r p s) ->
  fst (membership ParamsRound l addr r p s) = zero.
Proof.
  unfold membership, failed.
  destruct (ConsensusParams_ l (ParamsRound r)) as [cparams [e0|]]; [reflexivity|].
  destruct (BalanceRecord_ l (balanceRound r cparams) addr) as [record [e1|]];
    [reflexivity|].
  destruct (Circulation l (balanceRound r cparams)) as [total [e2|]]; [reflexivity|].
  destruct (Seed_ l (seedRound r cparams)) as [seed [e3|]]; [reflexivity|].
  cbn. intros E. now elim E.
Qed.

End MembershipSpec.

End SelectorSpec.

(** ** The gossip node *)

Module NetworkSpec.
Import Go Network.

(** *** Lists *)

Lemma filter_map_comm {A B : Type} (f : B -> bool) (g : A -> B) (l : list A) :
  filter f (map g l) = map g (filter (fun a => f (g a)) l).
Proof.
  induction l as [|a l IH]; cbn; [reflexivity|].
  destruct (f (g a)); cbn; now rewrite IH.
Qed.

Lemma filter_filter {A : Type} (f g : A -> bool) (l : list A) :
  filter f (filter g l) = filter (fun a => g a && f a) l.
Proof.
  induction l as [|a l IH]; cbn; [reflexivity|].
  destruct (g a); cbn; [destruct (f a)|]; now rewrite IH.
Qed.

Lemma filter_length_le {A : Type} (f : A -> bool) (l : list A) :
  (length (filter f l) <= length l)%nat.
Proof. induction l as [|a l IH]; cbn; [lia|]. destruct (f a); cbn; lia. Qed.

(** *** Records *)

Lemma chan_eta {A : Type} (c : chan A) : mkChan (buf c) (cap c) = c.
Proof. now destruct c. Qed.

Lemma withPeers_same (wn : WebsocketNetwork) : withPeers (peers wn) wn = wn.
Proof. now destruct wn. Qed.

Lemma withPeers_withPeers (a b : list wsPeer) (wn : WebsocketNetwork) :
  withPeers a (withPeers b wn) = withPeers a wn.
Proof. reflexivity. Qed.

Lemma withConn_same (p : wsPeer) : withConn (conn p) p = p.
Proof. now destruct p. Qed.

Lemma withSendBuffers_same (p : wsPeer) :
  withSendBuffers (sendBufferHighPrio p) (sendBufferBulk p) p = p.
Proof. now destruct p. Qed.

Lemma pushAll_nil (prio : bool) (p : wsPeer) : pushAll prio [] p = p.
Proof.
  unfold pushAll. destruct prio; rewrite app_nil_r, chan_eta;
    apply withSendBuffers_same.
Qed.

Section WithParams.

Context `{Params}.

(** *** The node-level queues *)

Lemma trySend_room {A : Type} (c : chan A) (x : A) :
  hasRoom c = true -> trySend c x = Some (mkChan (buf c ++ [x]) (cap c)).
Proof. unfold hasRoom, trySend. now intros ->. Qed.

Lemma trySend_full {A : Type} (c : chan A) (x : A) :
  hasRoom c = false -> trySend c x = None.
Proof. unfold hasRoom, trySend. now intros ->. Qed.

(** C6.  [broadcastWithTimestamp] selects the node-level queue by the
    classification of the tag alone: the high-priority queue when
    [highPriorityTag] holds of it, the bulk queue otherwise.  When that
    queue has room the request is appended to it and the call returns
    nil; when it is full the call returns [errBcastQFull] and leaves the
    node as it was.  The other queue and the peers are never touched,
    and the error returned depends on nothing but whether the selected
    queue had room: two nodes that agree on that get the same answer,
    whatever the state of their peers. *)
Theorem broadcastWithTimestamp_outcome (wn : WebsocketNetwork) (t : Tag) (d : bytes)
    (when : Time) :
  let request := {| tag := t; data := d; except := None; enqueueTime := when |} in
  let res := broadcastWithTimestamp wn t d when in
  broadcastQueueFor t wn
  = (if highPriorityTag t then broadcastQueueHighPrio wn else broadcastQueueBulk wn)
  /\ (if hasRoom (broadcastQueueFor t wn)
      then snd res = None
           /\ buf (broadcastQueueFor t (fst res))
              = buf (broadcastQueueFor t wn) ++ [request]
      else snd res = Some errBcastQFull /\ fst res = wn)
  /\ otherQueueFor t (fst res) = otherQueueFor t wn
  /\ peers (fst res) = peers wn
  /\ (forall wn' : WebsocketNetwork,
        hasRoom (broadcastQueueFor t wn') = hasRoom (broadcastQueueFor t wn) ->
        snd (broadcastWithTimestamp wn' t d when) = snd res).
Proof.
  cbv zeta. split; [reflexivity|].
  unfold broadcastWithTimestamp, broadcastQueueFor, otherQueueFor.
  destruct (highPriorityTag t).
  - destruct (hasRoom (broadcastQueueHighPrio wn)) eqn:Hroom.
    + rewrite (trySend_room _ _ Hroom). cbn.
      repeat split. intros wn' Hwn'. now rewrite (trySend_room _ _ Hwn').
    + rewrite (trySend_full _ _ Hroom). cbn.
      repeat split. intros wn' Hwn'. now rewrite (trySend_full _ _ Hwn').
  - destruct (hasRoom (broadcastQueueBulk wn)) eqn:Hroom.
    + rewrite (trySend_room _ _ Hroom). cbn.
      repeat split. intros wn' Hwn'. now rewrite (trySend_room _ _ Hwn').
    + rewrite (trySend_full _ _ Hroom). cbn.
      repeat split. intros wn' Hwn'. now rewrite (trySend_full _ _ Hwn').
Qed.

(** *** The dispatch step *)

Lemma dispatch_stale (now : Time) (prio : bool) (r : broadcastRequest)
    (wn : WebsocketNetwork) :
  maxMessageQueueDuration < now - enqueueTime r -> dispatch now prio r wn = wn.
Proof.
  intros Hold. unfold dispatch.
  now destruct (Z.ltb_spec maxMessageQueueDuration (now - enqueueTime r)); [|lia].
Qed.

Lemma dispatch_cases (now : Time) (prio : bool) (r : broadcastRequest)
    (wn : WebsocketNetwork) :
  dispatch now prio r wn
  = if fresh now (enqueueTime r)
    then withPeers (map (sendToPeer (config wn) prio r) (peers wn)) wn
    else wn.
Proof.
  unfold dispatch, fresh.
  now destruct (maxMessageQueueDuration <? now - enqueueTime r).
Qed.

Lemma fold_dispatch (now : Time) (prio : bool) (rs : list broadcastRequest) :
  forall wn : WebsocketNetwork,
  fold_left (fun w r => dispatch now prio r w) rs wn
  = withPeers
      (map (fun p =>
              fold_left (fun q r => sendToPeer (config wn) prio r q)
                (filter (fun r => fresh now (enqueueTime r)) rs) p)
           (peers wn))
      wn.
Proof.
  induction rs as [|r rs IH]; intros wn; cbn [fold_left filter].
  - now rewrite map_id, withPeers_same.
  - rewrite dispatch_cases.
    destruct (fresh now (enqueueTime r)); [|apply IH].
    rewrite IH. cbn [config peers withPeers fold_left].
    now rewrite map_map.
Qed.

Lemma sendToPeer_cases (conf : Local) (prio : bool) (r : broadcastRequest) (p : wsPeer) :
  sendToPeer conf prio r p
  = if reaches conf p r then fst (peerSend p prio (msgOf r)) else p.
Proof.
  unfold sendToPeer, reaches.
  destruct (peerExcluded r p); [reflexivity|].
  now destruct (peerHasContent conf r p).
Qed.

Lemma reaches_pushAll (conf : Local) (prio : bool) (ms : list sendMessage)
    (p : wsPeer) (r : broadcastRequest) :
  reaches conf (pushAll prio ms p) r = reaches conf p r.
Proof. unfold pushAll. now destruct prio. Qed.

Lemma peerSend_room (p : wsPeer) (prio : bool) (m : sendMessage) :
  hasRoom (if prio then sendBufferHighPrio p else sendBufferBulk p) = true ->
  fst (peerSend p prio m) = pushAll prio [m] p.
Proof.
  unfold peerSend, pushAll. destruct prio; intros Hroom;
    now rewrite (trySend_room _ _ Hroom).
Qed.

Lemma pushAll_pushAll (prio : bool) (a b : list sendMessage) (p : wsPeer) :
  pushAll prio b (pushAll prio a p) = pushAll prio (a ++ b) p.
Proof. unfold pushAll. destruct prio; cbn; now rewrite app_assoc. Qed.

(** A peer with room for all of [rs] on the selected queue is handed
    every request of [rs] that reaches it, in order. *)
Lemma fold_sendToPeer (conf : Local) (prio : bool) (rs : list broadcastRequest) :
  forall p : wsPeer,
  (length (buf (if prio then sendBufferHighPrio p else sendBufferBulk p)) + length rs
   <= cap (if prio then sendBufferHighPrio p else sendBufferBulk p))%nat ->
  fold_left (fun q r => sendToPeer conf prio r q) rs p
  = pushAll prio (map msgOf (filter (reaches conf p) rs)) p.
Proof.
  induction rs as [|r rs IH]; intros p Hcap; cbn [fold_left filter map].
  - now rewrite pushAll_nil.
  - cbn [length] in Hcap. rewrite sendToPeer_cases.
    destruct (reaches conf p r) eqn:Hr.
    + rewrite peerSend_room
        by (unfold hasRoom; apply Nat.ltb_lt; lia).
      rewrite IH.
      * rewrite pushAll_pushAll.
        rewrite (filter_ext (reaches conf (pushAll prio [msgOf r] p)) (reaches conf p))
          by (intros r'; apply reaches_pushAll).
        reflexivity.
      * unfold pushAll. destruct prio; cbn; rewrite length_app; cbn; lia.
    + apply IH. lia.
Qed.

(** *** The write loop *)

Lemma fold_writerSend (now : Time) (ms : list sendMessage) :
  forall p : wsPeer,
  fold_left (writerSend now) ms p
  = withConn
      (conn p ++ map (fun m => (msg_tag m, msg_data m))
                     (filter (fun m => fresh now (enqueued m)) ms))
      p.
Proof.
  induction ms as [|m ms IH]; intros p; cbn [fold_left filter map].
  - now rewrite app_nil_r, withConn_same.
  - unfold writerSend at 2. unfold fresh at 1.
    destruct (maxMessageQueueDuration <? now - enqueued m); cbn [negb].
    + apply IH.
    + rewrite IH. cbn [conn withConn map]. now rewrite <- app_assoc.
Qed.

Lemma writeLoop_spec (now : Time) (p : wsPeer) :
  writeLoop now p
  = withConn
      (conn p ++ map (fun m => (msg_tag m, msg_data m))
                     (filter (fun m => fresh now (enqueued m))
                             (buf (sendBufferHighPrio p) ++ buf (sendBufferBulk p))))
      (withSendBuffers (mkChan [] (cap (sendBufferHighPrio p)))
                       (mkChan [] (cap (sendBufferBulk p))) p).
Proof. unfold writeLoop. now rewrite fold_writerSend. Qed.

(** *** The dispatch loop and the writers together *)

Lemma dispatchLoop_spec (now : Time) (wn : WebsocketNetwork) :
  dispatchLoop now wn
  = withPeers
      (map (fun p =>
              fold_left (fun q r => sendToPeer (config wn) false r q)
                (filter (fun r => fresh now (enqueueTime r)) (buf (broadcastQueueBulk wn)))
                (fold_left (fun q r => sendToPeer (config wn) true r q)
                   (filter (fun r => fresh now (enqueueTime r))
                           (buf (broadcastQueueHighPrio wn)))
                   p))
           (peers wn))
      (withBroadcastQueueBulk (mkChan [] (cap (broadcastQueueBulk wn)))
         (withBroadcastQueueHighPrio (mkChan [] (cap (broadcastQueueHighPrio wn))) wn)).
Proof.
  unfold dispatchLoop. cbv zeta.
  rewrite !fold_dispatch. cbn [config peers withPeers withBroadcastQueueBulk
    withBroadcastQueueHighPrio].
  now rewrite map_map.
Qed.

Lemma delivered_split (now later : Time) (conf : Local) (p : wsPeer)
    (rs : list broadcastRequest) :
  map (fun m => (msg_tag m, msg_data m))
      (filter (fun m => fresh later (enqueued m))
         (map msgOf
            (filter (reaches conf p) (filter (fun r => fresh now (enqueueTime r)) rs))))
  = map frameOf (filter (delivered now later conf p) rs).
Proof.
  rewrite filter_map_comm, map_map, !filter_filter. cbn [msgOf enqueued msg_tag msg_data].
  unfold frameOf. f_equal. apply filter_ext. intros r. unfold delivered.
  destruct (fresh now (enqueueTime r)), (fresh later (enqueueTime r)),
    (reaches conf p r); reflexivity.
Qed.

Lemma flush_peer (conf : Local) (now later : Time) (high bulk : list broadcastRequest)
    (n : nat) (p : wsPeer) :
  idle n p -> (length high <= n)%nat -> (length bulk <= n)%nat ->
  writeLoop later
    (fold_left (fun q r => sendToPeer conf false r q)
       (filter (fun r => fresh now (enqueueTime r)) bulk)
       (fold_left (fun q r => sendToPeer conf true r q)
          (filter (fun r => fresh now (enqueueTime r)) high) p))
  = withConn (conn p ++ map frameOf (filter (delivered now later conf p) (high ++ bulk))) p.
Proof.
  intros (Hh & Hb & Hch & Hcb) Hhigh Hbulk.
  pose proof (filter_length_le (fun r => fresh now (enqueueTime r)) high) as Lh.
  pose proof (filter_length_le (fun r => fresh now (enqueueTime r)) bulk) as Lb.
  rewrite (fold_sendToPeer conf true) by (cbn; rewrite Hh; cbn; lia).
  rewrite (fold_sendToPeer conf false)
    by (unfold pushAll; cbn; rewrite Hb; cbn; lia).
  rewrite (filter_ext (reaches conf (pushAll true _ p)) (reaches conf p))
    by (intros r'; apply reaches_pushAll).
  rewrite writeLoop_spec.
  destruct p as [id [bh ch] [bb cb] addr w f c]. cbn in Hh, Hb. subst bh bb.
  cbn [pushAll withSendBuffers withConn sendBufferHighPrio sendBufferBulk buf cap conn
       peerID prioAddress prioWeight outgoingMsgFilter app].
  rewrite filter_app, map_app, !delivered_split, filter_app, map_app.
  reflexivity.
Qed.

(** Every request waiting on the node-level queues is either dropped or
    written, as a frame, to the connection of each peer it reaches: it
    is written when it is no older than [maxMessageQueueDuration] both
    when the dispatch loop takes it and when the peer's writer does. *)
Lemma flush_delivers (now later : Time) (wn : WebsocketNetwork) (n : nat) :
  (length (buf (broadcastQueueHighPrio wn)) <= n)%nat ->
  (length (buf (broadcastQueueBulk wn)) <= n)%nat ->
  Forall (idle n) (peers wn) ->
  peers (flush now later wn)
  = map (fun p =>
           withConn
             (conn p ++ map frameOf
                          (filter (delivered now later (config wn) p) (queued wn)))
             p)
        (peers wn).
Proof.
  intros Hhigh Hbulk Hidle. unfold flush. cbv zeta.
  rewrite dispatchLoop_spec. cbn [peers withPeers]. rewrite map_map.
  apply map_ext_in. intros p Hp.
  rewrite Forall_forall in Hidle.
  now apply (flush_peer (config wn) now later _ _ n p (Hidle p Hp)).
Qed.

(** *** Enqueuing *)

Lemma withQueued_nil (t : Tag) (wn : WebsocketNetwork) : withQueued t [] wn = wn.
Proof.
  unfold withQueued. destruct (highPriorityTag t); rewrite app_nil_r, chan_eta;
    now destruct wn.
Qed.

Lemma broadcastWithTimestamp_room (wn : WebsocketNetwork) (t : Tag) (d : bytes)
    (when : Time) :
  hasRoom (broadcastQueueFor t wn) = true ->
  broadcastWithTimestamp wn t d when = (withQueued t [requestAt t d when] wn, None).
Proof.
  unfold broadcastWithTimestamp, broadcastQueueFor, withQueued, requestAt.
  destruct (highPriorityTag t); intros Hroom; now rewrite (trySend_room _ _ Hroom).
Qed.

Lemma withQueued_withQueued (t : Tag) (a b : list broadcastRequest)
    (wn : WebsocketNetwork) :
  withQueued t b (withQueued t a wn) = withQueued t (a ++ b) wn.
Proof.
  unfold withQueued. destruct (highPriorityTag t); cbn; now rewrite app_assoc.
Qed.

Lemma broadcastQueueFor_withQueued (t : Tag) (rs : list broadcastRequest)
    (wn : WebsocketNetwork) :
  broadcastQueueFor t (withQueued t rs wn)
  = mkChan (buf (broadcastQueueFor t wn) ++ rs) (cap (broadcastQueueFor t wn)).
Proof. unfold broadcastQueueFor, withQueued. now destruct (highPriorityTag t). Qed.

Lemma fold_broadcastStamps (t : Tag) (d : bytes) (stamps : list Time) :
  forall (wn : WebsocketNetwork) (errs : list (option error)),
  (length (buf (broadcastQueueFor t wn)) + length stamps
   <= cap (broadcastQueueFor t wn))%nat ->
  fold_left
    (fun acc when =>
       let (w, e) := broadcastWithTimestamp (fst acc) t d when in (w, snd acc ++ [e]))
    stamps (wn, errs)
  = (withQueued t (map (requestAt t d) stamps) wn,
     errs ++ repeat None (length stamps)).
Proof.
  induction stamps as [|when stamps IH]; intros wn errs Hcap; cbn [fold_left map length repeat].
  - now rewrite withQueued_nil, app_nil_r.
  - cbn [length] in Hcap. cbn [fst snd].
    rewrite broadcastWithTimestamp_room by (unfold hasRoom; apply Nat.ltb_lt; lia).
    rewrite IH.
    + rewrite withQueued_withQueued, <- app_assoc. reflexivity.
    + rewrite broadcastQueueFor_withQueued. cbn. rewrite length_app. cbn. lia.
Qed.

Lemma broadcastStamps_room (wn : WebsocketNetwork) (t : Tag) (d : bytes)
    (stamps : list Time) :
  (length (buf (broadcastQueueFor t wn)) + length stamps
   <= cap (broadcastQueueFor t wn))%nat ->
  broadcastStamps wn t d stamps
  = (withQueued t (map (requestAt t d) stamps) wn, repeat None (length stamps)).
Proof. intros Hcap. unfold broadcastStamps. now rewrite fold_broadcastStamps. Qed.

(** *** Handlers *)

Lemma wrapInt_small (z : Z) : - 2 ^ 63 <= z < 2 ^ 63 -> wrapInt z = z.
Proof. intros Hz. unfold wrapInt. rewrite Z.mod_small; lia. Qed.

Lemma Handle_handled (h : messageCounterHandler) (m : IncomingMessage) :
  Handle h m = (handled 1 h, {| Action := action h |}).
Proof.
  unfold handled, Handle. cbn [Nat.iter fst]. cbv zeta. f_equal. f_equal.
  repeat match goal with
         | |- context [if ?c then _ else _] => destruct c
         end; reflexivity.
Qed.

Lemma handled_succ (n : nat) (h : messageCounterHandler) :
  handled (S n) h = handled n (handled 1 h).
Proof. unfold handled. now rewrite Nat.iter_succ_r. Qed.

Lemma handled_succ_l (n : nat) (h : messageCounterHandler) :
  handled (S n) h = handled 1 (handled n h).
Proof. reflexivity. Qed.

Lemma handled_1_action (h : messageCounterHandler) : action (handled 1 h) = action h.
Proof.
  change (handled 1 h)
    with (fst (Handle h {| Sender := 0; Tag_ := EmptyString; Data := [] |})).
  unfold Handle. cbv zeta. cbn [fst].
  set (h1 := incrCount h).
  destruct (negb (target h1 =? 0) && done h1 && (target h1 <=? count h1));
    match goal with |- context [if ?c then _ else _] => destruct c end; reflexivity.
Qed.

Lemma handled_1_count (h : messageCounterHandler) :
  count (handled 1 h) = wrapInt (count h + 1).
Proof.
  change (handled 1 h)
    with (fst (Handle h {| Sender := 0; Tag_ := EmptyString; Data := [] |})).
  unfold Handle. cbv zeta. cbn [fst].
  set (h1 := incrCount h).
  destruct (negb (target h1 =? 0) && done h1 && (target h1 <=? count h1));
    match goal with |- context [if ?c then _ else _] => destruct c end; reflexivity.
Qed.

Lemma handled_action (n : nat) (h : messageCounterHandler) :
  action (handled n h) = action h.
Proof.
  induction n as [|n IH]; [reflexivity|].
  now rewrite handled_succ_l, handled_1_action.
Qed.

Lemma handled_count (n : nat) (h : messageCounterHandler) :
  - 2 ^ 63 <= count h -> count h + Z.of_nat n < 2 ^ 63 ->
  count (handled n h) = count h + Z.of_nat n.
Proof.
  induction n as [|n IH]; intros Hlo Hhi; [cbn; lia|].
  rewrite handled_succ_l, handled_1_count, IH by lia.
  rewrite wrapInt_small; lia.
Qed.

Lemma multiplex_first (t : Tag) (h : messageCounterHandler)
    (rest : list (Tag * messageCounterHandler)) (m : IncomingMessage) :
  Tag_ m = t ->
  multiplex ((t, h) :: rest) m = ((t, handled 1 h) :: rest, {| Action := action h |}).
Proof.
  intros <-. cbn [multiplex]. rewrite String.eqb_refl.
  now rewrite Handle_handled.
Qed.

(** A node whose inbound filter is off and whose first handler, one that
    asks for nothing, is registered for the tag of every message it is
    given: the handler is called once per message and nothing else
    changes. *)
Lemma receiveAll_counts (now : Time) (t : Tag) (ms : list IncomingMessage) :
  forall (wn : WebsocketNetwork) (h : messageCounterHandler)
         (rest : list (Tag * messageCounterHandler)),
  EnableIncomingMessageFilter (config wn) = false ->
  handlers wn = (t, h) :: rest ->
  action h = Ignore ->
  Forall (fun m => Tag_ m = t) ms ->
  receiveAll now wn ms = withHandlers ((t, handled (length ms) h) :: rest) wn.
Proof.
  induction ms as [|m ms IH]; intros wn h rest Hoff Hh Hact Hall.
  - cbn. rewrite <- Hh. now destruct wn.
  - inversion Hall as [|m' ms' Hm Hms]; subst m' ms'.
    unfold receiveAll in *. cbn [fold_left length].
    unfold readLoop at 2. rewrite Hoff.
    unfold readerWorker. rewrite Hh, (multiplex_first _ _ _ _ Hm).
    cbn [Action]. rewrite Hact.
    rewrite (IH _ (handled 1 h) rest); cbn [config handlers withHandlers]; try assumption.
    + rewrite (handled_succ (length ms) h). reflexivity.
    + reflexivity.
    + now rewrite (handled_action 1).
Qed.

(** *** [TestDelayedMessageDrop] *)

Lemma fresh_false (now t : Time) :
  maxMessageQueueDuration < now - t -> fresh now t = false.
Proof. intros Hold. unfold fresh. now destruct (Z.ltb_spec maxMessageQueueDuration (now - t)); [|lia]. Qed.

Lemma fresh_true (now t : Time) :
  now - t <= maxMessageQueueDuration -> fresh now t = true.
Proof. intros Hnew. unfold fresh. now destruct (Z.ltb_spec maxMessageQueueDuration (now - t)); [lia|]. Qed.

Lemma peers_withQueued (t : Tag) (rs : list broadcastRequest) (wn : WebsocketNetwork) :
  peers (withQueued t rs wn) = peers wn.
Proof. unfold withQueued. now destruct (highPriorityTag t). Qed.

Lemma config_withQueued (t : Tag) (rs : list broadcastRequest) (wn : WebsocketNetwork) :
  config (withQueued t rs wn) = config wn.
Proof. unfold withQueued. now destruct (highPriorityTag t). Qed.

Lemma queued_withQueued (t : Tag) (rs : list broadcastRequest) (wn : WebsocketNetwork) :
  buf (broadcastQueueHighPrio wn) = [] -> buf (broadcastQueueBulk wn) = [] ->
  queued (withQueued t rs wn) = rs.
Proof.
  intros Hh Hb. unfold queued, withQueued.
  destruct (highPriorityTag t); cbn; rewrite Hh, Hb; cbn; [apply app_nil_r | reflexivity].
Qed.

Lemma queues_withQueued_length (t : Tag) (rs : list broadcastRequest)
    (wn : WebsocketNetwork) :
  buf (broadcastQueueHighPrio wn) = [] -> buf (broadcastQueueBulk wn) = [] ->
  (length (buf (broadcastQueueHighPrio (withQueued t rs wn))) <= length rs)%nat
  /\ (length (buf (broadcastQueueBulk (withQueued t rs wn))) <= length rs)%nat.
Proof.
  intros Hh Hb. unfold withQueued.
  destruct (highPriorityTag t); cbn; rewrite ?Hh, ?Hb; cbn; lia.
Qed.

(** What the unfiltered requests of [broadcastWithTimestamp] deliver to a
    peer of a node that does not filter its output. *)
Lemma delivered_requestAt (now later : Time) (conf : Local) (p : wsPeer) (t : Tag)
    (d : bytes) (stamps : list Time) :
  EnableOutgoingNetworkMessageFiltering conf = false ->
  filter (delivered now later conf p) (map (requestAt t d) stamps)
  = map (requestAt t d) (filter (fun s => fresh now s && fresh later s) stamps).
Proof.
  intros Hoff. rewrite filter_map_comm. f_equal. apply filter_ext. intros s.
  unfold delivered, reaches, peerExcluded, peerHasContent. cbn. rewrite Hoff.
  now rewrite andb_true_r.
Qed.

Lemma TestDelayedMessageDrop_eq (currentTime now later : Time) :
  (10 <= broadcastQueueLength)%nat ->
  TestDelayedMessageDrop currentTime now later
  = (repeat None 10,
     handled (length (filter (fun s => fresh now s && fresh later s)
                             (delayedStamps currentTime)))
             (newMessageCounter 5)).
Proof.
  intros Hq. unfold TestDelayedMessageDrop.
  set (netA := addPeer (newPeer defaultConfig 1) makeTestWebsocketNode).
  assert (Hh : buf (broadcastQueueHighPrio netA) = []) by reflexivity.
  assert (Hb : buf (broadcastQueueBulk netA) = []) by reflexivity.
  assert (Hp : peers netA = [newPeer defaultConfig 1]) by reflexivity.
  assert (Hc : config netA = defaultConfig) by reflexivity.
  rewrite broadcastStamps_room
    by (unfold broadcastQueueFor; destruct (highPriorityTag debugTag); cbn; lia).
  destruct (queues_withQueued_length debugTag
              (map (requestAt debugTag foo) (delayedStamps currentTime)) netA Hh Hb)
    as [Lh Lb].
  rewrite (flush_delivers now later _ 10).
  - rewrite peers_withQueued, config_withQueued, queued_withQueued, Hp, Hc by assumption.
    cbn [map]. rewrite delivered_requestAt by reflexivity.
    cbn [flat_map conn newPeer withConn app]. rewrite app_nil_r.
    set (kept := filter _ (delayedStamps currentTime)).
    rewrite (receiveAll_counts later debugTag _ _ (newMessageCounter 5) []).
    + cbn [handlers withHandlers]. unfold incoming. now rewrite !length_map.
    + reflexivity.
    + reflexivity.
    + reflexivity.
    + unfold incoming. rewrite !Forall_map. now apply Forall_forall.
  - cbn [length] in Lh. rewrite length_map in Lh. exact Lh.
  - rewrite length_map in Lb. exact Lb.
  - rewrite peers_withQueued, Hp. constructor; [|constructor].
    unfold idle, newPeer, sendBufferLength. cbn. repeat split; lia.
Qed.

Lemma delayedStamps_split (currentTime : Time) :
  delayedStamps currentTime
  = [currentTime - 5 * Hour; currentTime - 4 * Hour; currentTime - 3 * Hour;
     currentTime - 2 * Hour; currentTime - Hour]
    ++ [currentTime; currentTime + Hour; currentTime + 2 * Hour;
        currentTime + 3 * Hour; currentTime + 4 * Hour].
Proof.
  unfold delayedStamps. cbn [seq map app].
  repeat (apply (f_equal2 cons); [unfold Hour, Second, Millisecond; lia|]).
  reflexivity.
Qed.

(** C1.  A request older than [maxMessageQueueDuration] when the dispatch
    loop takes it is dropped: the node is left exactly as it was, so no
    peer is handed anything.  Of the requests waiting on the node-level
    queues, a flush writes to each peer's connection the frames of
    exactly those that reach the peer and are within the window both at
    dispatch and when the writer takes them, in order.  In
    [TestDelayedMessageDrop], where ten messages stamped from five hours
    before [currentTime] to four hours after it are dispatched, later
    than [currentTime], against a window of at most an hour, every call
    returns nil and the receiving handler counts at most five messages;
    it counts exactly five, and closes its channel, when the writer runs
    within the window of [currentTime]. *)
Theorem stale_dropped_fresh_delivered :
  (forall (now : Time) (prio : bool) (r : broadcastRequest) (wn : WebsocketNetwork),
      maxMessageQueueDuration < now - enqueueTime r ->
      dispatch now prio r wn = wn)
  /\ (forall (now later : Time) (wn : WebsocketNetwork) (n : nat),
         (length (buf (broadcastQueueHighPrio wn)) <= n)%nat ->
         (length (buf (broadcastQueueBulk wn)) <= n)%nat ->
         Forall (idle n) (peers wn) ->
         peers (flush now later wn)
         = map (fun p =>
                  withConn
                    (conn p ++ map frameOf
                       (filter (delivered now later (config wn) p) (queued wn)))
                    p)
               (peers wn))
  /\ (forall currentTime now later : Time,
         (10 <= broadcastQueueLength)%nat ->
         maxMessageQueueDuration <= Hour ->
         currentTime < now ->
         fst (TestDelayedMessageDrop currentTime now later) = repeat None 10
         /\ 0 <= count (snd (TestDelayedMessageDrop currentTime now later)) <= 5
         /\ (now <= later ->
             later - currentTime <= maxMessageQueueDuration ->
             count (snd (TestDelayedMessageDrop currentTime now later)) = 5
             /\ doneClosed (snd (TestDelayedMessageDrop currentTime now later)) = true)).
Proof.
  split; [exact dispatch_stale|].
  split; [exact flush_delivers|].
  intros currentTime now later Hq Hwin Hlate.
  rewrite TestDelayedMessageDrop_eq by assumption. cbn [fst snd].
  rewrite delayedStamps_split, filter_app.
  assert (Hour_pos : 0 < Hour) by reflexivity.
  set (late := [currentTime; currentTime + Hour; currentTime + 2 * Hour;
                currentTime + 3 * Hour; currentTime + 4 * Hour]).
  match goal with
  | |- context [filter ?g ?early ++ filter _ late] =>
    assert (Hearly : filter g early = [])
      by (cbn [filter]; rewrite !(fresh_false now) by lia; reflexivity);
    rewrite Hearly
  end.
  cbn [app].
  split; [reflexivity|]. split.
  - pose proof (filter_length_le (fun s => fresh now s && fresh later s) late) as Hle.
    subst late. cbn [length] in Hle.
    rewrite handled_count; cbn [count newMessageCounter]; lia.
  - intros Horder Hin. subst late. cbn [filter].
    rewrite !(fresh_true now), !(fresh_true later) by lia.
    cbn [andb length]. split; reflexivity.
Qed.

(** *** The inbound filter *)











(** *** Relaying *)










End WithParams.

(** *** The theorems at the sample parameters *)

Lemma stale_dropped_fresh_delivered_witness :
  (maxMessageQueueDuration (Params := sampleParams) < 1001 - enqueueTime sampleStale
   /\ dispatch (H := sampleParams) 1001 false sampleStale sampleNode = sampleNode)
  /\ (((length (buf (broadcastQueueHighPrio sampleNode)) <= 10)%nat
       /\ (length (buf (broadcastQueueBulk sampleNode)) <= 10)%nat
       /\ Forall (idle 10) (peers sampleNode))
      /\ flat_map conn (peers (flush (H := sampleParams) 1001 1002 sampleNode))
         = repeat (debugTag, foo) 5)
  /\ ((10 <= broadcastQueueLength (Params := sampleParams))%nat
      /\ maxMessageQueueDuration (Params := sampleParams) <= Hour
      /\ 1000 < 1001 /\ 1001 <= 1002
      /\ 1002 - 1000 <= maxMessageQueueDuration (Params := sampleParams))
  /\ fst (TestDelayedMessageDrop (H := sampleParams) 1000 1001 1002) = repeat None 10
  /\ count (snd (TestDelayedMessageDrop (H := sampleParams) 1000 1001 1002)) = 5
  /\ doneClosed (snd (TestDelayedMessageDrop (H := sampleParams) 1000 1001 1002)) = true.
Proof.
  pose proof (stale_dropped_fresh_delivered (H := sampleParams))
    as (Hdrop & Hflush & Htest).
  assert (Hold : maxMessageQueueDuration (Params := sampleParams)
                 < 1001 - enqueueTime sampleStale) by (vm_compute; reflexivity).
  assert (Hh : (length (buf (broadcastQueueHighPrio sampleNode)) <= 10)%nat)
    by (vm_compute; lia).
  assert (Hb : (length (buf (broadcastQueueBulk sampleNode)) <= 10)%nat)
    by (vm_compute; lia).
  assert (Hidle : Forall (idle 10) (peers sampleNode)).
  { repeat constructor; cbn; unfold sendBufferLength; lia. }
  assert (Hq : (10 <= broadcastQueueLength (Params := sampleParams))%nat)
    by (vm_compute; lia).
  assert (Hw : maxMessageQueueDuration (Params := sampleParams) <= Hour)
    by (vm_compute; discriminate).
  assert (Hin : 1002 - 1000 <= maxMessageQueueDuration (Params := sampleParams))
    by (vm_compute; discriminate).
  split; [split; [exact Hold | exact (Hdrop 1001 false sampleStale sampleNode Hold)]|].
  split.
  { split; [repeat split; assumption|].
    rewrite (Hflush 1001 1002 sampleNode 10%nat Hh Hb Hidle). reflexivity. }
  split; [repeat split; try assumption; lia|].
  destruct (Htest 1000 1001 1002 Hq Hw ltac:(lia)) as (Herrs & _ & Hfive).
  destruct (Hfive ltac:(lia) Hin) as [Hcount Hclosed].
  repeat split; assumption.
Defined.



End NetworkSpec.

(** ** More of the selector *)

Module SelectorMore.
Import Go Basics Config Agreement GoFacts SelectorSpec AgreementMore.

(** X1.  With a seed refresh interval of at least one round and no
    overflow in the lookbacks or in [r + 2], the balance round never
    comes after the seed round, which never comes after the round
    itself. *)
Theorem balanceRound_le_seedRound (r : Round) (cparams : ConsensusParams) :
  is_uint64 r ->
  1 <= SeedRefreshInterval cparams -> 0 <= SeedLookback cparams ->
  2 * SeedRefreshInterval cparams * SeedLookback cparams < uint64_modulus ->
  2 * SeedRefreshInterval cparams + SeedLookback cparams + 1 < uint64_modulus ->
  r + 2 < uint64_modulus ->
  balanceRound r cparams <= seedRound r cparams <= r.
Proof.
  intros Hr Hi Hl Hm Ha Hr2.
  rewrite balanceRound_no_overflow by (try assumption; lia).
  unfold seedRound.
  rewrite SubSaturate_spec by (try assumption; unfold is_uint64 in *; lia).
  unfold is_uint64 in Hr.
  destruct (Z.leb_spec (SeedLookback cparams) r);
    destruct (TwinSeeds cparams), (IncorrectBalLookback cparams); cbn [negb andb];
    split; try lia; try nia.
Qed.

Lemma balanceRound_le_seedRound_witness :
  (is_uint64 1000
   /\ 1 <= SeedRefreshInterval sampleConsensus /\ 0 <= SeedLookback sampleConsensus
   /\ 2 * SeedRefreshInterval sampleConsensus * SeedLookback sampleConsensus
      < uint64_modulus
   /\ 2 * SeedRefreshInterval sampleConsensus + SeedLookback sampleConsensus + 1
      < uint64_modulus
   /\ 1000 + 2 < uint64_modulus)
  /\ balanceRound 1000 sampleConsensus <= seedRound 1000 sampleConsensus <= 1000.
Proof.
  assert (H1 : is_uint64 1000) by (vm_compute; split; [discriminate | reflexivity]).
  assert (H2 : 1 <= SeedRefreshInterval sampleConsensus) by (vm_compute; discriminate).
  assert (H3 : 0 <= SeedLookback sampleConsensus) by (vm_compute; discriminate).
  assert (H4 : 2 * SeedRefreshInterval sampleConsensus * SeedLookback sampleConsensus
               < uint64_modulus) by (vm_compute; reflexivity).
  assert (H5 : 2 * SeedRefreshInterval sampleConsensus + SeedLookback sampleConsensus + 1
               < uint64_modulus) by (vm_compute; reflexivity).
  assert (H6 : 1000 + 2 < uint64_modulus) by (vm_compute; reflexivity).
  split; [repeat split; assumption|].
  exact (balanceRound_le_seedRound 1000 sampleConsensus H1 H2 H3 H4 H5 H6).
Defined.

(** X2.  Both rounds follow the round they are computed for: as long
    as [r' + 2] does not wrap, a later round never gets an earlier seed
    or balance round, and neither of them advances by more than the
    round did. *)
Theorem rounds_monotone (r r' : Round) (cparams : ConsensusParams) :
  is_uint64 r -> is_uint64 (SeedLookback cparams) ->
  r <= r' -> r' + 2 < uint64_modulus ->
  seedRound r cparams <= seedRound r' cparams <= seedRound r cparams + (r' - r)
  /\ balanceRound r cparams <= balanceRound r' cparams
     <= balanceRound r cparams + (r' - r).
Proof.
  intros Hr Hs Hle Hr2.
  assert (Hr' : is_uint64 r') by (unfold is_uint64 in *; lia).
  unfold seedRound. rewrite !SubSaturate_spec by assumption.
  rewrite !balanceRound_SubSaturate.
  rewrite !SubSaturate_spec
    by (try apply balanceFrom_range; try apply balanceLookback_range; assumption).
  pose proof (balanceLookback_range cparams) as Hl.
  unfold balanceFrom.
  rewrite !(wrap64_small (_ + 2)) by (unfold is_uint64 in *; lia).
  unfold is_uint64 in *.
  destruct (negb (TwinSeeds cparams) && IncorrectBalLookback cparams);
    repeat match goal with
           | |- context [?a <=? ?b] => destruct (Z.leb_spec a b)
           end; lia.
Qed.

Lemma rounds_monotone_witness :
  (is_uint64 150 /\ is_uint64 (SeedLookback sampleConsensus)
   /\ 150 <= 1000 /\ 1000 + 2 < uint64_modulus)
  /\ seedRound 150 sampleConsensus <= seedRound 1000 sampleConsensus
     <= seedRound 150 sampleConsensus + (1000 - 150)
  /\ balanceRound 150 sampleConsensus <= balanceRound 1000 sampleConsensus
     <= balanceRound 150 sampleConsensus + (1000 - 150).
Proof.
  assert (H1 : is_uint64 150) by (vm_compute; split; [discriminate | reflexivity]).
  assert (H2 : is_uint64 (SeedLookback sampleConsensus))
    by (vm_compute; split; [discriminate | reflexivity]).
  assert (H3 : 150 <= 1000) by lia.
  assert (H4 : 1000 + 2 < uint64_modulus) by (vm_compute; reflexivity).
  split; [repeat split; assumption|].
  exact (rounds_monotone 150 1000 sampleConsensus H1 H2 H3 H4).
Defined.

(** X3.  [IncorrectBalLookback] has no effect under [TwinSeeds];
    without it the flag moves the balance round forward by at most two
    rounds, and by exactly two once the round has reached the lookback. *)
Theorem incorrect_lookback_shift (r : Round) (cparams : ConsensusParams) :
  is_uint64 r -> r + 2 < uint64_modulus ->
  let incorrect := balanceRound r (withIncorrectBalLookback true cparams) in
  let correct := balanceRound r (withIncorrectBalLookback false cparams) in
  if TwinSeeds cparams then incorrect = correct
  else correct <= incorrect <= correct + 2
       /\ (balanceLookback cparams <= r -> incorrect = correct + 2).
Proof.
  intros Hr Hr2. cbv zeta.
  rewrite !balanceRound_SubSaturate.
  rewrite !SubSaturate_spec
    by (try apply balanceFrom_range; try apply balanceLookback_range; assumption).
  pose proof (balanceLookback_range cparams) as Hl.
  unfold balanceFrom, balanceLookback in *.
  cbn [withIncorrectBalLookback TwinSeeds IncorrectBalLookback SeedLookback
       SeedRefreshInterval].
  destruct (TwinSeeds cparams); cbn [negb andb]; [reflexivity|].
  rewrite (wrap64_small (r + 2)) by (unfold is_uint64 in *; lia).
  unfold is_uint64 in *.
  repeat match goal with
         | |- context [?a <=? ?b] => destruct (Z.leb_spec a b)
         end; lia.
Qed.

Lemma incorrect_lookback_shift_witness :
  (is_uint64 1000 /\ 1000 + 2 < uint64_modulus)
  /\ balanceRound 1000 (withIncorrectBalLookback false sampleConsensus)
     <= balanceRound 1000 (withIncorrectBalLookback true sampleConsensus)
     <= balanceRound 1000 (withIncorrectBalLookback false sampleConsensus) + 2.
Proof.
  assert (H1 : is_uint64 1000) by (vm_compute; split; [discriminate | reflexivity]).
  assert (H2 : 1000 + 2 < uint64_modulus) by (vm_compute; reflexivity).
  split; [split; assumption|].
  exact (proj1 (incorrect_lookback_shift 1000 sampleConsensus H1 H2)).
Defined.



Section MembershipMore.

Context {Seed Address BalanceRecord MicroAlgos period step LedgerError : Type}.
Context `{Zero Seed, Zero BalanceRecord, Zero MicroAlgos, Zero period, Zero step}.
Variable ParamsRound : Round -> Round.

#[local] Abbreviation error := (Agreement.error Address LedgerError).
#[local] Abbreviation LedgerReader := (Agreement.LedgerReader Seed Address BalanceRecord MicroAlgos LedgerError).

(** X5.  When [membership] fails it hands back the zero membership,
    never a partly filled one, and its error is that of the first query
    to fail in the order parameters, balance record, circulation, seed,
    whatever the later queries would answer: the ledger's own error for
    the parameters, and otherwise that query's error wrapped with the
    round asked for and the round looked up. *)
Theorem membership_first_failure (l : LedgerReader) (addr : Address) (r : Round)
    (p : period) (s : step) (e : error) :
  snd (membership ParamsRound l addr r p s) = Some e ->
  let cparams := fst (ConsensusParams_ l (ParamsRound r)) in
  let record := BalanceRecord_ l (balanceRound r cparams) addr in
  let total := Circulation l (balanceRound r cparams) in
  let seed := Seed_ l (seedRound r cparams) in
  fst (membership ParamsRound l addr r p s) = zero
  /\ (snd (ConsensusParams_ l (ParamsRound r)) = Some e
      \/ snd (ConsensusParams_ l (ParamsRound r)) = None
         /\ ((exists cause, snd record = Some cause
                /\ e = ErrBalanceRecord r addr (balanceRound r cparams) cause)
             \/ snd record = None
                /\ ((exists cause, snd total = Some cause
                       /\ e = ErrCirculation r (balanceRound r cparams) cause)
                    \/ snd total = None
                       /\ exists cause, snd seed = Some cause
                            /\ e = ErrSeed r (seedRound r cparams) cause))).
Proof.
  unfold membership.
  destruct (ConsensusParams_ l (ParamsRound r)) as [cparams [e0|]]; cbn [fst snd].
  { intros [= <-]. split; [reflexivity | now left]. }
  destruct (BalanceRecord_ l (balanceRound r cparams) addr) as [record [e1|]];
    cbn [fst snd].
  { intros [= <-]. split; [reflexivity|]. right. split; [reflexivity|].
    left. now exists e1. }
  destruct (Circulation l (balanceRound r cparams)) as [total [e2|]]; cbn [fst snd].
  { intros [= <-]. split; [reflexivity|]. right. split; [reflexivity|].
    right. split; [reflexivity|]. left. now exists e2. }
  destruct (Seed_ l (seedRound r cparams)) as [seed [e3|]]; cbn [fst snd].
  { intros [= <-]. split; [reflexivity|]. right. split; [reflexivity|].
    right. split; [reflexivity|]. right. split; [reflexivity|]. now exists e3. }
  discriminate.
Qed.

(** X6.  [membership] reads the ledger at four places only: the
    parameters at [ParamsRound r], the record of the address and the
    circulation at the balance round, and the seed at the seed round.
    Two ledgers that answer alike there give the same result, whatever
    they hold for other rounds and addresses. *)
Theorem membership_local (l l' : LedgerReader) (addr : Address) (r : Round)
    (p : period) (s : step) :
  let cparams := fst (ConsensusParams_ l (ParamsRound r)) in
  ConsensusParams_ l (ParamsRound r) = ConsensusParams_ l' (ParamsRound r) ->
  BalanceRecord_ l (balanceRound r cparams) addr
  = BalanceRecord_ l' (balanceRound r cparams) addr ->
  Circulation l (balanceRound r cparams) = Circulation l' (balanceRound r cparams) ->
  Seed_ l (seedRound r cparams) = Seed_ l' (seedRound r cparams) ->
  membership ParamsRound l addr r p s = membership ParamsRound l' addr r p s.
Proof.
  cbv zeta. intros Hp Hb Hc Hs. unfold membership.
  rewrite <- Hp.
  destruct (ConsensusParams_ l (ParamsRound r)) as [cparams [e0|]]; [reflexivity|].
  cbn [fst] in Hb, Hc, Hs. rewrite <- Hb, <- Hc, <- Hs. reflexivity.
Qed.

End MembershipMore.

Lemma membership_first_failure_witness :
  snd (membership sampleParamsRound brokenLedger 5 1000 0 1)
  = Some (ErrCirculation 1000 799 (LedgerErr 3))
  /\ fst (membership sampleParamsRound brokenLedger 5 1000 0 1) = zero.
Proof.
  assert (E : snd (membership sampleParamsRound brokenLedger 5 1000 0 1)
              = Some (ErrCirculation 1000 799 (LedgerErr 3)))
    by (vm_compute; reflexivity).
  split; [exact E|].
  exact (proj1 (membership_first_failure sampleParamsRound brokenLedger 5 1000 0 1
                  (ErrCirculation 1000 799 (LedgerErr 3)) E)).
Defined.

Lemma membership_local_witness :
  (Seed_ sampleLedger 5 <> Seed_ sparseLedger 5)
  /\ membership sampleParamsRound sampleLedger 5 1000 0 1
     = membership sampleParamsRound sparseLedger 5 1000 0 1.
Proof.
  split; [vm_compute; discriminate|].
  apply (membership_local sampleParamsRound sampleLedger sparseLedger 5 1000 0 1);
    vm_compute; reflexivity.
Defined.

End SelectorMore.

(** ** Little-endian encoding *)

Module BinarySpec.
Import Go Network Binary GoFacts.

Lemma Z_of_byte_of_Z (z : Z) : Z_of_byte (byte_of_Z z) = z mod 256.
Proof.
  unfold Z_of_byte, byte_of_Z.
  assert (Hz : 0 <= z mod 256 < 256) by (apply Z.mod_pos_bound; lia).
  destruct (Byte.of_N (Z.to_N (z mod 256))) as [b|] eqn:E.
  - apply Byte.to_of_N in E. rewrite E. apply Z2N.id. lia.
  - apply Byte.of_N_None_iff in E. lia.
Qed.

Lemma testbit_byte (x i : Z) :
  Z.testbit (Z_of_byte (byte_of_Z x)) i = (0 <=? i) && (i <? 8) && Z.testbit x i.
Proof.
  rewrite Z_of_byte_of_Z. change 256 with (2 ^ 8).
  destruct (Z.leb_spec 0 i) as [Hi|Hi]; cbn [andb].
  - apply Z.testbit_mod_pow2. lia.
  - now apply Z.testbit_neg_r.
Qed.

Lemma testbit_slot (v k n : Z) :
  0 <= k -> 0 <= n ->
  Z.testbit (Z.shiftl (Z_of_byte (byte_of_Z (Z.shiftr v k))) k) n
  = (k <=? n) && (n <? k + 8) && Z.testbit v n.
Proof.
  intros Hk Hn. rewrite Z.shiftl_spec, testbit_byte by assumption.
  destruct (Z.leb_spec k n) as [Hkn|Hkn].
  - rewrite Z.shiftr_spec by lia. replace (n - k + k) with n by lia.
    replace (0 <=? n - k) with true by (symmetry; apply Z.leb_le; lia).
    cbn [andb].
    destruct (Z.ltb_spec (n - k) 8); destruct (Z.ltb_spec n (k + 8)); try lia;
      reflexivity.
  - replace (0 <=? n - k) with false by (symmetry; apply Z.leb_gt; lia).
    reflexivity.
Qed.

(** What [PutUint64] writes, [Uint64] reads back; the slice keeps its
    length and the bytes after the eighth. *)
Lemma Uint64_PutUint64 (b : bytes) (v : Z) :
  (8 <= length b)%nat ->
  exists b', PutUint64 b v = Some b'
             /\ length b' = length b /\ skipn 8 b' = skipn 8 b
             /\ Uint64 b' = Some (wrap64 v).
Proof.
  intros Hb. unfold PutUint64.
  destruct (Nat.ltb_spec (length b) 8) as [Hlt|_]; [lia|].
  eexists. split; [reflexivity|]. split; [|split].
  - rewrite length_app, length_skipn. cbn [length]. lia.
  - reflexivity.
  - cbn [app Uint64]. f_equal. unfold wrap64, uint64_modulus.
    apply Z.bits_inj'. intros n Hn.
    rewrite !Z.lor_spec, !testbit_slot by lia.
    rewrite testbit_byte, Z.testbit_mod_pow2 by lia.
    destruct (Z.testbit v n); rewrite ?andb_true_r, ?andb_false_r; [|reflexivity].
    repeat match goal with
           | |- context [?a <=? ?c] => destruct (Z.leb_spec a c); try lia
           | |- context [?a <? ?c] => destruct (Z.ltb_spec a c); try lia
           end; reflexivity.
Qed.

End BinarySpec.

(** ** The handlers of the test file *)

Module HandlerSpec.
Import Go Network Binary Handlers GoFacts NetworkSpec BinarySpec.






Lemma wrapInt_wrap64 (s : Z) : - 2 ^ 63 <= s < 2 ^ 63 -> wrapInt (wrap64 s) = s.
Proof.
  intros Hs. unfold wrapInt, wrap64, uint64_modulus.
  rewrite Z.add_mod_idemp_l by discriminate.
  rewrite Z.mod_small; lia.
Qed.


Lemma length_repeat_8 (n : nat) : (8 <= n)%nat -> (8 <= length (repeat Byte.x00 n))%nat.
Proof. now rewrite repeat_length. Qed.

(** X9.  The index [BenchmarkWebsocketNetworkBasic] writes into its
    message of [msgSize] bytes is the number [benchmarkHandler.Handle]
    sends on its channel when the message arrives: with room in the
    channel the handler appends that index, as a [uint64], and answers
    with the zero action. *)
Theorem benchmark_round_trip (bh : benchmarkHandler) (i : Z) (sender : nat) (t : Tag) :
  hasRoom (returns bh) = true ->
  exists msg,
    benchmarkMessage i = Some msg
    /\ length msg = msgSize
    /\ benchmarkHandle bh {| Sender := sender; Tag_ := t; Data := msg |}
       = Returns ({| returns := mkChan (buf (returns bh) ++ [wrap64 i])
                                       (cap (returns bh)) |},
                  {| Action := Ignore |}).
Proof.
  intros Hroom. unfold benchmarkMessage.
  destruct (Uint64_PutUint64 (repeat Byte.x00 msgSize) (wrap64 i)) as (msg & E & L & _ & U).
  { apply length_repeat_8. unfold msgSize. lia. }
  exists msg. split; [exact E|]. split; [now rewrite L, repeat_length|].
  unfold benchmarkHandle. cbn [Data]. rewrite U.
  rewrite (wrap64_small _ (wrap64_range i)).
  now rewrite (trySend_room _ _ Hroom).
Qed.

Lemma benchmark_round_trip_witness :
  exists msg,
    benchmarkMessage 41 = Some msg
    /\ length msg = msgSize
    /\ benchmarkHandle {| returns := makeChan Z 100 |}
         {| Sender := 0; Tag_ := debugTag; Data := msg |}
       = Returns ({| returns := mkChan ([] ++ [wrap64 41]) 100 |}, {| Action := Ignore |}).
Proof.
  exact (benchmark_round_trip {| returns := makeChan Z 100 |} 41 0 debugTag eq_refl).
Defined.

(** X10.  The send time [TestLineNetwork] packs into its eight-byte
    payload is the one the verbose branch of [Handle] unpacks: for any
    [int64] send time, negative ones included, the handler logs [now]
    less that send time, in [int64] arithmetic. *)
Theorem transitTime_sendTime (now sendTime : Z) (sender : nat) (t : Tag) :
  - 2 ^ 63 <= sendTime < 2 ^ 63 ->
  exists blob,
    timeblob sendTime = Some blob
    /\ length blob = 8%nat
    /\ transitTime true now {| Sender := sender; Tag_ := t; Data := blob |}
       = Returns (Some (wrapInt (now - sendTime))).
Proof.
  intros Hs. unfold timeblob.
  destruct (Uint64_PutUint64 (repeat Byte.x00 8) (wrap64 sendTime))
    as (blob & E & L & _ & U).
  { apply length_repeat_8. lia. }
  rewrite repeat_length in L.
  exists blob. split; [exact E|]. split; [exact L|].
  unfold transitTime. cbn [Data andb]. rewrite L, U. cbn [Nat.eqb].
  rewrite (wrap64_small _ (wrap64_range sendTime)).
  now rewrite wrapInt_wrap64.
Qed.

Lemma transitTime_sendTime_witness :
  - 2 ^ 63 <= -5 < 2 ^ 63
  /\ exists blob,
       timeblob (-5) = Some blob
       /\ length blob = 8%nat
       /\ transitTime true 1000 {| Sender := 0; Tag_ := debugTag; Data := blob |}
          = Returns (Some (wrapInt (1000 - -5))).
Proof.
  assert (H : - 2 ^ 63 <= -5 < 2 ^ 63) by lia.
  split; [exact H|].
  exact (transitTime_sendTime 1000 (-5) 0 debugTag H).
Defined.


End HandlerSpec.

(** ** The broadcast queues *)

Module QueueSpec.
Import Go Network NetworkSpec.

Section WithParams.

Context `{Params}.

Lemma broadcastWithTimestamp_full (wn : WebsocketNetwork) (t : Tag) (d : bytes)
    (when : Time) :
  hasRoom (broadcastQueueFor t wn) = false ->
  broadcastWithTimestamp wn t d when = (wn, Some errBcastQFull).
Proof.
  unfold broadcastWithTimestamp, broadcastQueueFor.
  destruct (highPriorityTag t); intros Hroom; now rewrite (trySend_full _ _ Hroom).
Qed.

Lemma fold_broadcastStamps_overflow (t : Tag) (d : bytes) (stamps : list Time) :
  forall (wn : WebsocketNetwork) (errs : list (option error)),
  let q := broadcastQueueFor t wn in
  let room := (cap q - length (buf q))%nat in
  fold_left
    (fun acc when =>
       let (w, e) := broadcastWithTimestamp (fst acc) t d when in (w, snd acc ++ [e]))
    stamps (wn, errs)
  = (withQueued t (map (requestAt t d) (firstn room stamps)) wn,
     errs ++ repeat None (Nat.min (length stamps) room)
          ++ repeat (Some errBcastQFull) (length stamps - room)).
Proof.
  induction stamps as [|when stamps IH]; intros wn errs; cbv zeta.
  - rewrite firstn_nil. cbn. now rewrite withQueued_nil, app_nil_r.
  - cbn [fold_left fst snd length].
    destruct (hasRoom (broadcastQueueFor t wn)) eqn:Hroom.
    + rewrite broadcastWithTimestamp_room by assumption.
      unfold hasRoom in Hroom. apply Nat.ltb_lt in Hroom.
      rewrite IH. cbv zeta. rewrite broadcastQueueFor_withQueued. cbn [buf cap].
      rewrite length_app. cbn [length].
      destruct (cap (broadcastQueueFor t wn) - length (buf (broadcastQueueFor t wn)))%nat
        as [|room] eqn:E; [lia|].
      replace (cap (broadcastQueueFor t wn)
               - (length (buf (broadcastQueueFor t wn)) + 1))%nat with room by lia.
      cbn [firstn map Nat.min Nat.sub repeat].
      rewrite withQueued_withQueued. cbn [app].
      rewrite <- app_assoc. reflexivity.
    + rewrite broadcastWithTimestamp_full by assumption.
      unfold hasRoom in Hroom. apply Nat.ltb_ge in Hroom.
      rewrite IH. cbv zeta.
      replace (cap (broadcastQueueFor t wn) - length (buf (broadcastQueueFor t wn)))%nat
        with 0%nat by lia.
      rewrite !firstn_O, !Nat.min_0_r, !Nat.sub_0_r. cbn [map repeat app length].
      rewrite !withQueued_nil, <- app_assoc. reflexivity.
Qed.

(** X12.  Of a run of calls of [broadcastWithTimestamp] on one tag,
    as many succeed as the selected queue had room for, the first ones,
    and their requests are appended in the order of the calls; every
    later call returns [errBcastQFull] and leaves the node as it is.
    A queue within its capacity stays within it. *)
Theorem broadcastStamps_overflow (wn : WebsocketNetwork) (t : Tag) (d : bytes)
    (stamps : list Time) :
  let q := broadcastQueueFor t wn in
  let room := (cap q - length (buf q))%nat in
  let res := broadcastStamps wn t d stamps in
  res = (withQueued t (map (requestAt t d) (firstn room stamps)) wn,
         repeat None (Nat.min (length stamps) room)
         ++ repeat (Some errBcastQFull) (length stamps - room))
  /\ buf (broadcastQueueFor t (fst res))
     = buf q ++ map (requestAt t d) (firstn room stamps)
  /\ ((length (buf q) <= cap q)%nat ->
      (length (buf (broadcastQueueFor t (fst res))) <= cap q)%nat).
Proof.
  cbv zeta. unfold broadcastStamps.
  rewrite fold_broadcastStamps_overflow. cbv zeta. cbn [fst app].
  rewrite broadcastQueueFor_withQueued. cbn [buf].
  split; [reflexivity|]. split; [reflexivity|].
  intros Hle. rewrite length_app, length_map, length_firstn. lia.
Qed.

End WithParams.

End QueueSpec.

(** ** deploy_private_version.sh *)

Module DeploySpec.
Import Deploy.




Lemma options_stop (b : list string) (o' : Options) (n : nat) :
  forall (a : list string) (o : Options),
  (length a <= n)%nat ->
  options a o = GoesOn o' -> options (a ++ ""%string :: b) o = GoesOn o'.
Proof.
  induction n as [|n IH]; intros a o Hlen.
  - destruct a; [|cbn in Hlen; lia]. cbn. trivial.
  - destruct a as [|arg rest]; [cbn; trivial|].
    cbn [app options].
    destruct (arg =? "")%string; [trivial|].
    destruct (option_ arg) as [assign|]; [|discriminate].
    destruct rest as [|value rest']; [discriminate|].
    cbn [app]. apply IH. cbn [length] in Hlen. lia.
Qed.

(** X14.  The option loop stops at the first empty parameter that
    stands where an option is expected, and reads nothing after it:
    when the parameters before it are read to their end, the script
    does with the longer list what it does with those alone. *)
Theorem deploy_options_stop (a b : list string) (o : Options) :
  options a initial = GoesOn o ->
  deploy_options (a ++ ""%string :: b) = deploy_options a.
Proof.
  intros E. unfold deploy_options.
  now rewrite (options_stop b o (length a) a initial (le_n _) E), E.
Qed.

Lemma deploy_options_stop_witness :
  deploy_options (["-c"; "TestCatchup"; "-g"; "testnet"]%string
                  ++ ""%string :: ["-n"; "testnetwork"]%string)
  = deploy_options ["-c"; "TestCatchup"; "-g"; "testnet"]%string
  /\ deploy_options ["-c"; "TestCatchup"; "-g"; "testnet"]%string = Exit 1 syntax.
Proof.
  split; [|vm_compute; reflexivity].
  exact (deploy_options_stop ["-c"; "TestCatchup"; "-g"; "testnet"]%string
           ["-n"; "testnetwork"]%string
           {| CHANNEL := "TestCatchup"; DEFAULTNETWORK := "testnet"; NETWORK := "";
              GENESISFILE := ""; BUCKET := "" |} eq_refl).
Defined.

End DeploySpec.
